(** * IEA critical-minerals dashboard: filtering, KPI and risk-ranking pipeline

    A shallow embedding of [src/app.py].  The script is a linear
    load -> filter -> aggregate -> rank program over three pandas frames.

    Numbers.  Every numeric column is a float64 (or int64) pandas column and
    the script performs no arithmetic on it: values are only compared,
    minimised, replaced when missing and re-ordered.  A finite float64 is a
    dyadic rational and float comparison on finite values is comparison of
    those rationals, so a cell is either [NaN] (pandas' missing marker) or
    [Num q] with [q : Q].  Two representations of one rational compare equal,
    as [-0.0] and [0.0] do.  The infinities are not cells; the KPI
    indicators, the statements that treat an infinity unlike a number, are
    modelled on [float64], which has them.

    Text.  Strings are [String.string] (ASCII text); case folding acts on
    the letters A-Z. *)

From Stdlib Require Import List String Ascii Bool Arith ZArith QArith Qabs Lia.
From Stdlib Require Import DecimalString.
From Stdlib Require Import Sorting.Sorted Sorting.Permutation.
Import ListNotations.

Local Open Scope string_scope.
Local Open Scope list_scope.

(** ** Cells *)

Inductive cell : Type :=
| NaN
| Num (q : Q).

Definition isna (c : cell) : bool :=
  match c with NaN => true | Num _ => false end.

(** [Series.fillna(v)] on one value. *)
Definition fill (v : Q) (c : cell) : cell :=
  match c with NaN => Num v | Num _ => c end.

(** [Series.fillna(v)]. *)
Definition fillna (v : Q) (s : list cell) : list cell := map (fill v) s.

(** [Series.dropna()]. *)
Fixpoint dropna (s : list cell) : list Q :=
  match s with
  | [] => []
  | NaN :: s' => dropna s'
  | Num q :: s' => q :: dropna s'
  end.

(** Ascending order of one sort key with [na_position='last'] (the default
    of [sort_values]): every number precedes [NaN]. *)
Definition cell_leb (a b : cell) : bool :=
  match a, b with
  | _, NaN => true
  | NaN, Num _ => false
  | Num x, Num y => Qle_bool x y
  end.

Definition cell_le (a b : cell) : Prop := cell_leb a b = true.

(** Strict comparison of two reported numbers, as used for [risk_rank]. *)
Definition cell_lt (a b : cell) : Prop :=
  match a, b with
  | Num x, Num y => (x < y)%Q
  | _, _ => False
  end.

(** ** Rows and frames *)

(** The numeric columns a summary frame may hold.  [RiskRank] is the column
    the ranking block adds. *)
Inductive column : Type :=
| FirstDeficitYear
| MaxDeficitKt
| Gap2030Kt
| Gap2040Kt
| RiskRank.

Definition column_eqb (a b : column) : bool :=
  match a, b with
  | FirstDeficitYear, FirstDeficitYear
  | MaxDeficitKt, MaxDeficitKt
  | Gap2030Kt, Gap2030Kt
  | Gap2040Kt, Gap2040Kt
  | RiskRank, RiskRank => true
  | _, _ => false
  end.

(** The name under which the script addresses each column. *)
Definition column_name (c : column) : string :=
  match c with
  | FirstDeficitYear => "first_deficit_year"
  | MaxDeficitKt => "max_deficit_kt"
  | Gap2030Kt => "gap_2030_kt"
  | Gap2040Kt => "gap_2040_kt"
  | RiskRank => "risk_rank"
  end.

(** One row of the summary frame.  [mineral] and [scenario] are the text
    columns [load_summary] normalises, so they exist in every loaded frame;
    the slot of a numeric column that the frame does not have is never
    read. *)
Record Row : Type := mkRow {
  mineral : string;
  scenario : string;
  first_deficit_year : cell;
  max_deficit_kt : cell;
  gap_2030_kt : cell;
  gap_2040_kt : cell;
  risk_rank : cell
}.

Definition field (c : column) (r : Row) : cell :=
  match c with
  | FirstDeficitYear => first_deficit_year r
  | MaxDeficitKt => max_deficit_kt r
  | Gap2030Kt => gap_2030_kt r
  | Gap2040Kt => gap_2040_kt r
  | RiskRank => risk_rank r
  end.

Definition set_field (c : column) (v : cell) (r : Row) : Row :=
  match c with
  | FirstDeficitYear =>
      mkRow (mineral r) (scenario r) v (max_deficit_kt r)
            (gap_2030_kt r) (gap_2040_kt r) (risk_rank r)
  | MaxDeficitKt =>
      mkRow (mineral r) (scenario r) (first_deficit_year r) v
            (gap_2030_kt r) (gap_2040_kt r) (risk_rank r)
  | Gap2030Kt =>
      mkRow (mineral r) (scenario r) (first_deficit_year r) (max_deficit_kt r)
            v (gap_2040_kt r) (risk_rank r)
  | Gap2040Kt =>
      mkRow (mineral r) (scenario r) (first_deficit_year r) (max_deficit_kt r)
            (gap_2030_kt r) v (risk_rank r)
  | RiskRank =>
      mkRow (mineral r) (scenario r) (first_deficit_year r) (max_deficit_kt r)
            (gap_2030_kt r) (gap_2040_kt r) v
  end.

(** A frame: the numeric columns it has, and its rows, each under its index
    label.  Selection and sorting carry the label along, as pandas does. *)
Record DataFrame : Type := mkFrame {
  columns : list column;
  rows : list (nat * Row)
}.

(** What [pd.read_csv] builds: a [RangeIndex], label = position. *)
Definition read_frame (cols : list column) (rs : list Row) : DataFrame :=
  mkFrame cols (combine (seq 0 (List.length rs)) rs).

Definition has_column (c : column) (df : DataFrame) : bool :=
  existsb (column_eqb c) (columns df).

Definition column_values (c : column) (df : DataFrame) : list cell :=
  map (fun ir => field c (snd ir)) (rows df).

(** [df[mask]] for a mask computed row by row. *)
Definition mask_rows (p : Row -> bool) (df : DataFrame) : DataFrame :=
  mkFrame (columns df) (filter (fun ir => p (snd ir)) (rows df)).

(** [df[c] = values] for values as long as the frame: overwrites the column,
    or appends it when the frame has none of that name. *)
Definition assign (c : column) (vals : list cell) (df : DataFrame) : DataFrame :=
  mkFrame (if has_column c df then columns df else columns df ++ [c])
          (map (fun irv => (fst (fst irv), set_field c (snd irv) (snd (fst irv))))
               (combine (rows df) vals)).

(** ** Stable ascending sort *)

Section StableSort.
Context {A : Type} (leb : A -> A -> bool).

Fixpoint insert (x : A) (l : list A) : list A :=
  match l with
  | [] => [x]
  | y :: l' => if leb x y then x :: l else y :: insert x l'
  end.

Fixpoint stable_sort (l : list A) : list A :=
  match l with
  | [] => []
  | x :: l' => insert x (stable_sort l')
  end.
End StableSort.

(** Lexicographic comparison on the key columns [by], all ascending. *)
Fixpoint keys_leb (by_ : list column) (a b : Row) : bool :=
  match by_ with
  | [] => true
  | c :: cs =>
      if cell_leb (field c a) (field c b)
      then if cell_leb (field c b) (field c a) then keys_leb cs a b else true
      else false
  end.

(** [df.sort_values(by=[...], ascending=[True, ...])] with two or more keys.
    pandas sorts several keys through a lexicographic indexer, which keeps
    rows with equal keys in their incoming order. *)
Definition sorted_rows (by_ : list column) (df : DataFrame) : DataFrame :=
  mkFrame (columns df)
          (stable_sort (fun a b => keys_leb by_ (snd a) (snd b)) (rows df)).

(** [range(1, n + 1)] as a column of integers. *)
Definition range1 (n : nat) : list cell :=
  map (fun k => Num (inject_Z (Z.of_nat k))) (seq 1 n).

(** ** Objects, references and exceptions

    A pandas frame is a mutable object and a Python variable holds a
    reference to it.  The heap lists the live frames; a reference is a
    position in it.  [df[c] = values] updates the object in place, whereas
    [df[mask]], [df.copy()] and [df.sort_values(...)] build a new object. *)

Inductive exn : Type :=
| KeyError (missing : list column)
| ValueError
| ReError
| NameError
| AttributeError
| OverflowError.

Inductive result (A : Type) : Type :=
| Ok (a : A)
| Raise (e : exn).
Arguments Ok {A} a.
Arguments Raise {A} e.

Definition ref : Type := nat.
Definition heap : Type := list DataFrame.

(** A computation reads and updates the heap and either returns or raises. *)
Definition Py (A : Type) : Type := heap -> result A * heap.

Definition ret {A : Type} (a : A) : Py A := fun h => (Ok a, h).

Definition raise {A : Type} (e : exn) : Py A := fun h => (Raise e, h).

Definition bind {A B : Type} (m : Py A) (k : A -> Py B) : Py B :=
  fun h =>
    match m h with
    | (Ok a, h') => k a h'
    | (Raise e, h') => (Raise e, h')
    end.

Declare Scope py_scope.
Delimit Scope py_scope with py.
Notation "x <- m ;; k" := (bind m (fun x => k))
  (at level 61, m at next level, right associativity) : py_scope.
Notation "m ;; k" := (bind m (fun _ => k))
  (at level 61, right associativity) : py_scope.
Local Open Scope py_scope.

Fixpoint update {A : Type} (l : nat) (x : A) (h : list A) : list A :=
  match h, l with
  | [], _ => []
  | _ :: h', O => x :: h'
  | y :: h', S l' => y :: update l' x h'
  end.

Definition new (df : DataFrame) : Py ref :=
  fun h => (Ok (List.length h), h ++ [df]).

Definition deref (l : ref) : Py DataFrame :=
  fun h =>
    match nth_error h l with
    | Some df => (Ok df, h)
    | None => (Raise NameError, h)
    end.

Definition store (l : ref) (df : DataFrame) : Py unit :=
  fun h => (Ok tt, update l df h).

(** [df[mask]]: a new frame with the selected rows. *)
Definition getitem_mask (l : ref) (p : Row -> bool) : Py ref :=
  df <- deref l ;; new (mask_rows p df).

(** [df.copy()]. *)
Definition copy (l : ref) : Py ref :=
  df <- deref l ;; new df.

(** [df[c]]: the column, or [KeyError]. *)
Definition getitem (l : ref) (c : column) : Py (list cell) :=
  df <- deref l ;;
  if has_column c df then ret (column_values c df) else raise (KeyError [c]).

(** [df[c] = values]: in place; pandas refuses values of another length. *)
Definition setitem (l : ref) (c : column) (vals : list cell) : Py unit :=
  df <- deref l ;;
  if Nat.eqb (List.length vals) (List.length (rows df))
  then store l (assign c vals df)
  else raise ValueError.

(** [df.sort_values(by=by_, ascending=[True, ...])]: a new, sorted frame. *)
Definition sort_values (l : ref) (by_ : list column) : Py ref :=
  df <- deref l ;;
  match filter (fun c => negb (has_column c df)) by_ with
  | [] => new (sorted_rows by_ df)
  | c :: _ => raise (KeyError [c])
  end.

(** [len(df)]. *)
Definition len (l : ref) : Py nat :=
  df <- deref l ;; ret (List.length (rows df)).

(** One row of [ranking_display]: the six columns the script projects. *)
Record DisplayRow : Type := mkDisplay {
  d_risk_rank : cell;
  d_mineral : string;
  d_first_deficit_year : cell;
  d_max_deficit_kt : cell;
  d_gap_2030_kt : cell;
  d_gap_2040_kt : cell
}.

Definition display_of (r : Row) : DisplayRow :=
  mkDisplay (risk_rank r) (mineral r) (first_deficit_year r)
            (max_deficit_kt r) (gap_2030_kt r) (gap_2040_kt r).

(** [df[["risk_rank", "mineral", "first_deficit_year", "max_deficit_kt",
    "gap_2030_kt", "gap_2040_kt"]]]: the projection, or a [KeyError] that
    lists every requested column the frame lacks. *)
Definition getitem_display (l : ref) : Py (list (nat * DisplayRow)) :=
  df <- deref l ;;
  match filter (fun c => negb (has_column c df))
               [RiskRank; FirstDeficitYear; MaxDeficitKt; Gap2030Kt; Gap2040Kt] with
  | [] => ret (map (fun ir => (fst ir, display_of (snd ir))) (rows df))
  | missing => raise (KeyError missing)
  end.

(** ** The risk-ranking block (lines 170-191) *)

Definition ranking (summary : ref) (rank_scenario : string) : Py ref :=
  ranking <- getitem_mask summary (fun r => String.eqb (scenario r) rank_scenario) ;;
  ranking <- copy ranking ;;
  s <- getitem ranking MaxDeficitKt ;;
  setitem ranking MaxDeficitKt (fillna 0 s) ;;
  s <- getitem ranking FirstDeficitYear ;;
  setitem ranking FirstDeficitYear (fillna 9999 s) ;;
  ranking <- sort_values ranking [MaxDeficitKt; FirstDeficitYear] ;;
  n <- len ranking ;;
  setitem ranking RiskRank (range1 n) ;;
  ret ranking.

Definition ranking_display (summary : ref) (rank_scenario : string)
  : Py (DataFrame * list (nat * DisplayRow)) :=
  ranking <- ranking summary rank_scenario ;;
  ranking_display <- getitem_display ranking ;;
  ranked <- deref ranking ;;
  ret (ranked, ranking_display).

(** [rankRisk(summaryTable, scenario)]: the block run on the loaded summary
    frame; its result is the ranked frame. *)
Definition rankRisk (summary : DataFrame) (rank_scenario : string) : result DataFrame :=
  fst ((r <- ranking 0%nat rank_scenario ;; deref r) [summary]).

(** The table handed to the presenter. *)
Definition rankRisk_display (summary : DataFrame) (rank_scenario : string)
  : result (list (nat * DisplayRow)) :=
  match fst (ranking_display 0%nat rank_scenario [summary]) with
  | Ok (_, d) => Ok d
  | Raise e => Raise e
  end.

(** ** Filters (lines 64-79) *)

(** One row of the time-series frame. *)
Record SupplyDemandRecord : Type := mkSeries {
  sd_mineral : string;
  sd_scenario : string;
  sd_year : Z;
  sd_demand_kt : cell;
  sd_supply_kt : cell;
  sd_gap_kt : cell
}.

(** One row of the technology frame. *)
Record TechDemandRecord : Type := mkTech {
  t_mineral : string;
  t_scenario : string;
  t_technology : string;
  t_year : Z;
  t_demand_kt : cell
}.

(** [Series.isin(values)] on one value. *)
Definition isin (s : string) (values : list string) : bool :=
  existsb (String.eqb s) values.

(** [filtered]: [df[(df["mineral"] == mineral) & df["scenario"].isin(scenario)]].
    [sel_mineral] and [sel_scenario] are the sidebar's [mineral] and
    [scenario]. *)
Definition filtered (df : list SupplyDemandRecord)
    (sel_mineral : string) (sel_scenario : list string) : list SupplyDemandRecord :=
  filter (fun r => String.eqb (sd_mineral r) sel_mineral && isin (sd_scenario r) sel_scenario) df.

(** The mask of [summary_filtered]. *)
Definition summary_mask (sel_mineral : string) (sel_scenario : list string) (r : Row) : bool :=
  String.eqb (mineral r) sel_mineral && isin (scenario r) sel_scenario.

(** *** Text helpers *)

Definition dash : ascii := "-"%char.

(** [s.split("-")[0]]: the text before the first dash, all of it when there
    is none. *)
Fixpoint before_dash (s : string) : string :=
  match s with
  | EmptyString => EmptyString
  | String c s' => if Ascii.eqb c dash then EmptyString else String c (before_dash s')
  end.

(** The ASCII characters [str.strip()] removes. *)
Definition is_space (c : ascii) : bool :=
  let n := nat_of_ascii c in
  ((9 <=? n) && (n <=? 13) || (28 <=? n) && (n <=? 32))%nat.

Fixpoint lstrip (s : string) : string :=
  match s with
  | EmptyString => EmptyString
  | String c s' => if is_space c then lstrip s' else s
  end.

Fixpoint rstrip (s : string) : string :=
  match s with
  | EmptyString => EmptyString
  | String c s' =>
      match rstrip s' with
      | EmptyString => if is_space c then EmptyString else String c EmptyString
      | t => String c t
      end
  end.

(** [s.strip()]. *)
Definition strip (s : string) : string := rstrip (lstrip s).

(** [base_mineral = mineral.split("-")[0].strip()]. *)
Definition base_mineral (sel_mineral : string) : string :=
  strip (before_dash sel_mineral).

(** Case folding of one character: A-Z to a-z. *)
Definition lower (c : ascii) : ascii :=
  let n := nat_of_ascii c in
  if ((65 <=? n) && (n <=? 90))%nat then ascii_of_nat (n + 32) else c.

(** *** [Series.str.contains(pat, case=False, na=False)]

    pandas' [str.contains] has [regex=True] unless told otherwise: it
    compiles [pat] with [re.compile(pat, re.IGNORECASE)] and keeps the
    values in which [search] finds a match.  The fragment of the pattern
    language embedded here is: ordinary characters, the dot, and
    parenthesised groups.  A group without alternation or repetition matches
    what its contents match, so a pattern of the fragment is a sequence of
    atoms. *)

Inductive atom : Type :=
| Lit (c : ascii)
| AnyChar.

(** The characters that introduce the rest of the pattern language
    (escapes, anchors, repetition, classes, alternation). *)
Definition other_syntax (c : ascii) : bool :=
  existsb (Ascii.eqb c)
    ["\"%char; "^"%char; "$"%char; "*"%char; "+"%char; "?"%char;
     "{"%char; "}"%char; "["%char; "]"%char; "|"%char].

Fixpoint uses_other_syntax (pat : string) : bool :=
  match pat with
  | EmptyString => false
  | String c pat' => other_syntax c || uses_other_syntax pat'
  end.

(** Parsing a pattern of the fragment at group depth [depth]: [None] is
    [re.error] (a closing parenthesis that closes nothing, or a group left
    open). *)
Fixpoint parse_atoms (depth : nat) (pat : string) : option (list atom) :=
  match pat with
  | EmptyString => match depth with O => Some [] | S _ => None end
  | String c pat' =>
      if Ascii.eqb c "("%char then parse_atoms (S depth) pat'
      else if Ascii.eqb c ")"%char then
        match depth with
        | O => None
        | S d => parse_atoms d pat'
        end
      else
        match parse_atoms depth pat' with
        | Some atoms => Some ((if Ascii.eqb c "."%char then AnyChar else Lit c) :: atoms)
        | None => None
        end
  end.

(** One atom against one character, ignoring case; the dot matches
    everything but a line feed. *)
Definition atom_matches (a : atom) (c : ascii) : bool :=
  match a with
  | Lit p => Ascii.eqb (lower p) (lower c)
  | AnyChar => negb (Ascii.eqb c "010"%char)
  end.

(** The atoms match a prefix of the text. *)
Fixpoint match_here (atoms : list atom) (text : string) : bool :=
  match atoms, text with
  | [], _ => true
  | _ :: _, EmptyString => false
  | a :: atoms', String c text' => atom_matches a c && match_here atoms' text'
  end.

(** [pattern.search(text) is not None]. *)
Fixpoint search (atoms : list atom) (text : string) : bool :=
  match_here atoms text ||
  match text with
  | EmptyString => false
  | String _ text' => search atoms text'
  end.

Section Contains.

(** What [re.compile(pat, re.IGNORECASE)] makes of a pattern that uses
    the rest of the pattern language: [None] when it raises [re.error],
    otherwise the predicate [search(text) is not None]. *)
Variable re_rest : string -> option (string -> bool).

Definition re_compile (pat : string) : option (string -> bool) :=
  if uses_other_syntax pat then re_rest pat
  else match parse_atoms 0 pat with
       | Some atoms => Some (search atoms)
       | None => None
       end.

(** [tech_filtered] (lines 76-79). *)
Definition tech_filtered (tech_df : list TechDemandRecord)
    (sel_mineral : string) (sel_scenario : list string)
    : result (list TechDemandRecord) :=
  match re_compile (base_mineral sel_mineral) with
  | Some found =>
      Ok (filter (fun r => found (t_mineral r) && isin (t_scenario r) sel_scenario) tech_df)
  | None => Raise ReError
  end.

End Contains.

(** ** KPI calculations (lines 84-90) *)

Section Run.

(** [DataFrame.get(c)]: the column, or [None] when the frame has none of
    that name. *)
Definition get (df : DataFrame) (c : column) : option (list cell) :=
  if has_column c df then Some (column_values c df) else None.

Definition qmin (a b : Q) : Q := if Qle_bool a b then a else b.

(** [Series.min()]: missing values are skipped; [NaN] when nothing is
    left. *)
Definition series_min (s : list cell) : cell :=
  match dropna s with
  | [] => NaN
  | q :: qs => Num (fold_left qmin qs q)
  end.

Definition empty {A : Type} (l : list A) : bool :=
  match l with [] => true | _ :: _ => false end.

(** [safe_min]; the result [None] is Python's [None]. *)
Definition safe_min (series : option (list cell)) : option cell :=
  match series with
  | Some s => if negb (empty (dropna s)) then Some (series_min s) else None
  | None => None
  end.

Record KPIs : Type := mkKPIs {
  kpi_first_deficit_year : option cell;
  kpi_max_deficit : option cell;
  kpi_gap_2030 : option cell;
  kpi_gap_2040 : option cell
}.

Definition computeKPIs (summary_filtered : DataFrame) : KPIs :=
  mkKPIs (safe_min (get summary_filtered FirstDeficitYear))
         (safe_min (get summary_filtered MaxDeficitKt))
         (safe_min (get summary_filtered Gap2030Kt))
         (safe_min (get summary_filtered Gap2040Kt)).

(** ** The whole run *)

Record Outputs : Type := mkOutputs {
  out_filtered : list SupplyDemandRecord;
  out_summary_filtered : DataFrame;
  out_tech_filtered : list TechDemandRecord;
  out_kpis : KPIs;
  out_ranking : DataFrame;
  out_ranking_display : list (nat * DisplayRow)
}.

Definition lift {A : Type} (r : result A) : Py A := fun h => (r, h).

Variable re_rest : string -> option (string -> bool).

(** One run of the script for the widget values [sel_mineral],
    [sel_scenario] and [rank_scenario], in statement order. *)
Definition app (df : list SupplyDemandRecord) (summary : ref)
    (tech_df : list TechDemandRecord)
    (sel_mineral : string) (sel_scenario : list string) (rank_scenario : string)
    : Py Outputs :=
  let filtered := filtered df sel_mineral sel_scenario in
  summary_filtered <- getitem_mask summary (summary_mask sel_mineral sel_scenario) ;;
  tech_filtered <- lift (tech_filtered re_rest tech_df sel_mineral sel_scenario) ;;
  summary_filtered <- deref summary_filtered ;;
  let kpis := computeKPIs summary_filtered in
  rd <- ranking_display summary rank_scenario ;;
  ret (mkOutputs filtered summary_filtered tech_filtered kpis (fst rd) (snd rd)).

(** The run on freshly loaded tables. *)
Definition run_app (df : list SupplyDemandRecord) (summary : DataFrame)
    (tech_df : list TechDemandRecord)
    (sel_mineral : string) (sel_scenario : list string) (rank_scenario : string)
    : result Outputs :=
  fst (app df 0%nat tech_df sel_mineral sel_scenario rank_scenario [summary]).

End Run.

(** What the specification asks of the technology filter: the value
    contains the base mineral as a substring, ignoring case. *)
Fixpoint prefix_ci (p text : string) : bool :=
  match p, text with
  | EmptyString, _ => true
  | String _ _, EmptyString => false
  | String a p', String c text' => Ascii.eqb (lower a) (lower c) && prefix_ci p' text'
  end.

Fixpoint contains_ci (p text : string) : bool :=
  prefix_ci p text ||
  match text with
  | EmptyString => false
  | String _ text' => contains_ci p text'
  end.

Definition spec_filterTech (tech_df : list TechDemandRecord)
    (sel_mineral : string) (sel_scenario : list string) : list TechDemandRecord :=
  filter (fun r => contains_ci (base_mineral sel_mineral) (t_mineral r)
                   && isin (t_scenario r) sel_scenario) tech_df.

(** ** Example tables *)

Definition all_columns : list column :=
  [FirstDeficitYear; MaxDeficitKt; Gap2030Kt; Gap2040Kt].

Definition ex_lithium (g1 g2 : cell) : Row := mkRow "Lithium" "STEPS" NaN NaN g1 g2 NaN.
Definition ex_cobalt (g1 g2 : cell) : Row :=
  mkRow "Cobalt" "STEPS" (Num 2031) (Num 120) g1 g2 NaN.

(** A stand-in for the rest of the pattern language, for closed examples. *)
Definition no_re : string -> option (string -> bool) := fun _ => None.

Definition ex_tech : list TechDemandRecord :=
  [mkTech "PGMs (other than iridium)" "STEPS" "Hydrogen" 2030 (Num 1);
   mkTech "Lithium" "STEPS" "EV" 2030 (Num 2);
   mkTech "lithium chemicals" "APS" "EV" 2030 (Num 2)].

(** ** The ranking block as a function of the summary frame *)

(** [summary[summary["scenario"] == rank_scenario]]. *)
Definition selected (df : DataFrame) (rank_scenario : string) : DataFrame :=
  mask_rows (fun r => String.eqb (scenario r) rank_scenario) df.

(** The copy after the first [fillna] assignment. *)
Definition substituted_deficit (df : DataFrame) (rank_scenario : string) : DataFrame :=
  let d := selected df rank_scenario in
  assign MaxDeficitKt (fillna 0 (column_values MaxDeficitKt d)) d.

(** The copy after both [fillna] assignments. *)
Definition substituted (df : DataFrame) (rank_scenario : string) : DataFrame :=
  let d := substituted_deficit df rank_scenario in
  assign FirstDeficitYear (fillna 9999 (column_values FirstDeficitYear d)) d.

(** The sorted frame with its [risk_rank] column. *)
Definition ranked (df : DataFrame) (rank_scenario : string) : DataFrame :=
  let d := sorted_rows [MaxDeficitKt; FirstDeficitYear] (substituted df rank_scenario) in
  assign RiskRank (range1 (List.length (rows d))) d.

(** One row after both substitutions. *)
Definition substitute (r : Row) : Row :=
  let r' := set_field MaxDeficitKt (fill 0 (max_deficit_kt r)) r in
  set_field FirstDeficitYear (fill 9999 (first_deficit_year r')) r'.

(** ** Orders used in the statements *)

Definition num_lt (a b : cell) : Prop := cell_lt a b.

Definition num_eq (a b : cell) : Prop :=
  match a, b with
  | Num x, Num y => (x == y)%Q
  | _, _ => False
  end.

Definition num_le (a b : cell) : Prop :=
  match a, b with
  | Num x, Num y => (x <= y)%Q
  | _, _ => False
  end.

(** The pair [(max_deficit_kt, first_deficit_year)] of [a] is
    lexicographically at most that of [b]; both pairs hold numbers. *)
Definition key_le (a b : Row) : Prop :=
  num_lt (max_deficit_kt a) (max_deficit_kt b) \/
  (num_eq (max_deficit_kt a) (max_deficit_kt b) /\
   num_le (first_deficit_year a) (first_deficit_year b)).

(** The two pairs are equal. *)
Definition key_eq (a b : Row) : Prop :=
  num_eq (max_deficit_kt a) (max_deficit_kt b) /\
  num_eq (first_deficit_year a) (first_deficit_year b).

(** [a] may stand before [b] in the result of a stable sort: its key is not
    larger, and with equal keys it came first. *)
Definition precedes {A : Type} (leb : A -> A -> bool) (label : A -> nat) (a b : A) : Prop :=
  leb a b = true /\ (leb b a = true -> label a < label b)%nat.

(** ** The ranked rows, row by row *)

Definition substitute_row (ir : nat * Row) : nat * Row := (fst ir, substitute (snd ir)).

Definition in_scenario (s : string) (ir : nat * Row) : bool :=
  String.eqb (scenario (snd ir)) s.

Definition by_key (a b : nat * Row) : bool :=
  keys_leb [MaxDeficitKt; FirstDeficitYear] (snd a) (snd b).

Definition rank_cell (k : nat) : cell := Num (inject_Z (Z.of_nat k)).

(** The row at position [k] of the sorted frame, with its rank. *)
Definition with_rank (k : nat) (ir : nat * Row) : nat * Row :=
  (fst ir, set_field RiskRank (rank_cell (S k)) (snd ir)).

Definition sorted_selection (df : DataFrame) (s : string) : list (nat * Row) :=
  stable_sort by_key (map substitute_row (filter (in_scenario s) (rows df))).

(** The specification's reading of the substitution: rows without a
    reported deficit are ranked after every row with one. *)
Definition missing_deficit_ranks_last (cols : list column) (rs : list Row) (s : string) : Prop :=
  forall out a b ra rb,
    rankRisk (read_frame cols rs) s = Ok out ->
    In a (rows out) -> In b (rows out) ->
    nth_error rs (fst a) = Some ra -> nth_error rs (fst b) = Some rb ->
    max_deficit_kt ra = NaN -> max_deficit_kt rb <> NaN ->
    num_lt (risk_rank (snd b)) (risk_rank (snd a)).

(** What the block and the projection return, as a function of the summary
    frame. *)
Definition display_outcome (df : DataFrame) (s : string)
  : result (DataFrame * list (nat * DisplayRow)) :=
  if has_column MaxDeficitKt df then
    if has_column FirstDeficitYear df then
      match filter (fun c => negb (has_column c (ranked df s)))
                   [RiskRank; FirstDeficitYear; MaxDeficitKt; Gap2030Kt; Gap2040Kt] with
      | [] => Ok (ranked df s,
                  map (fun ir => (fst ir, display_of (snd ir))) (rows (ranked df s)))
      | missing => Raise (KeyError missing)
      end
    else Raise (KeyError [FirstDeficitYear])
  else Raise (KeyError [MaxDeficitKt]).

(** ** The KPI rule in the specification's words *)

(** The three cases in which a KPI has no value: the filtered summary has
    no rows, the column is absent, or the column holds missing values
    only. *)
Definition no_value_case (c : column) (sf : DataFrame) : Prop :=
  rows sf = [] \/ has_column c sf = false \/
  Forall (fun v => v = NaN) (column_values c sf).

(** [m] is the minimum of the values of [s] that are not missing. *)
Definition is_min_of (m : Q) (s : list cell) : Prop :=
  In (Num m) s /\ forall q, In (Num q) s -> (m <= q)%Q.

(** A KPI follows the rule for column [c]: no value in the three cases
    above, and the minimum of the reported values as soon as the column is
    there with one value reported. *)
Definition kpi_rule (c : column) (sf : DataFrame) (kpi : option cell) : Prop :=
  (no_value_case c sf -> kpi = None) /\
  (forall q, has_column c sf = true -> In (Num q) (column_values c sf) ->
             exists m, kpi = Some (Num m) /\ is_min_of m (column_values c sf)).

(** ** Patterns without pattern syntax *)

(** A character that stands for itself in a pattern. *)
Definition plain_char (c : ascii) : bool :=
  negb (other_syntax c || Ascii.eqb c "("%char || Ascii.eqb c ")"%char
        || Ascii.eqb c "."%char).

Fixpoint all_plain (pat : string) : bool :=
  match pat with
  | EmptyString => true
  | String c pat' => plain_char c && all_plain pat'
  end.

Fixpoint literals (pat : string) : list atom :=
  match pat with
  | EmptyString => []
  | String c pat' => Lit c :: literals pat'
  end.

(** ** Loading (lines 14-38)

    [pd.read_csv] is the boundary: a loader is modelled from the rows the
    file parses to, with text columns that hold text.  On those,
    [astype(str)] changes nothing and [str.strip()] trims each value. *)

Definition load_supply_demand (raw : list SupplyDemandRecord) : list SupplyDemandRecord :=
  map (fun r => mkSeries (strip (sd_mineral r)) (strip (sd_scenario r)) (sd_year r)
                         (sd_demand_kt r) (sd_supply_kt r) (sd_gap_kt r)) raw.

Definition load_summary (cols : list column) (raw : list Row) : DataFrame :=
  read_frame cols
    (map (fun r => mkRow (strip (mineral r)) (strip (scenario r)) (first_deficit_year r)
                         (max_deficit_kt r) (gap_2030_kt r) (gap_2040_kt r) (risk_rank r))
         raw).

Definition load_tech_demand (raw : list TechDemandRecord) : list TechDemandRecord :=
  map (fun r => mkTech (strip (t_mineral r)) (strip (t_scenario r)) (strip (t_technology r))
                       (t_year r) (t_demand_kt r)) raw.

(** The text begins, or ends, with a character [strip] removes. *)
Definition starts_with_space (s : string) : bool :=
  match s with
  | EmptyString => false
  | String c _ => is_space c
  end.

Fixpoint ends_with_space (s : string) : bool :=
  match s with
  | EmptyString => false
  | String c EmptyString => is_space c
  | String _ s' => ends_with_space s'
  end.

Fixpoint all_space (s : string) : bool :=
  match s with
  | EmptyString => true
  | String c s' => is_space c && all_space s'
  end.

Fixpoint has_dash (s : string) : bool :=
  match s with
  | EmptyString => false
  | String c s' => Ascii.eqb c dash || has_dash s'
  end.

(** ** Widget options (lines 45-54, 165-168) *)

(** [Series.unique()]: the distinct values in order of first appearance. *)
Fixpoint unique (l : list string) : list string :=
  match l with
  | [] => []
  | x :: l' => x :: filter (fun y => negb (String.eqb y x)) (unique l')
  end.

(** [sorted(values)] on text: ascending by character code. *)
Definition sorted (l : list string) : list string := stable_sort String.leb l.

(** The options of the mineral select box. *)
Definition mineral_options (df : list SupplyDemandRecord) : list string :=
  sorted (unique (map sd_mineral df)).

(** The options of the scenario multi-select, and its default selection
    [list(df["scenario"].unique())]. *)
Definition scenario_options (df : list SupplyDemandRecord) : list string :=
  sorted (unique (map sd_scenario df)).

Definition scenario_default (df : list SupplyDemandRecord) : list string :=
  unique (map sd_scenario df).

(** The options of the select box of the ranking scenario. *)
Definition rank_scenario_options (summary : DataFrame) : list string :=
  sorted (unique (map (fun ir => scenario (snd ir)) (rows summary))).

(** The KPI the script computes from column [c]; it computes none from
    [risk_rank]. *)
Definition kpi_of (c : column) (k : KPIs) : option cell :=
  match c with
  | FirstDeficitYear => kpi_first_deficit_year k
  | MaxDeficitKt => kpi_max_deficit k
  | Gap2030Kt => kpi_gap_2030 k
  | Gap2040Kt => kpi_gap_2040 k
  | RiskRank => None
  end.

(** [summary_filtered] and the KPIs computed from it, as a function of the
    summary frame and the sidebar selection. *)
Definition summary_filtered (summary : DataFrame)
    (sel_mineral : string) (sel_scenario : list string) : DataFrame :=
  mask_rows (summary_mask sel_mineral sel_scenario) summary.

(** Row [ir] of the summary frame is selected by the sidebar. *)
Definition selected_row (sel_mineral : string) (sel_scenario : list string)
    (ir : nat * Row) : Prop :=
  mineral (snd ir) = sel_mineral /\ In (scenario (snd ir)) sel_scenario.

(** The ranked rows as a function of the rows of the summary table, index
    labels left aside: select, substitute, sort, number. *)
Definition rank_rows (rs : list Row) (rank_scenario : string) : list Row :=
  let chosen := filter (fun r => String.eqb (scenario r) rank_scenario) rs in
  let sorted := stable_sort (keys_leb [MaxDeficitKt; FirstDeficitYear]) (map substitute chosen) in
  map (fun rv => set_field RiskRank (snd rv) (fst rv))
      (combine sorted (range1 (List.length sorted))).

(** ** KPI indicators (lines 84-109)

    A CSV file may hold [inf] and [-inf], which [read_csv] parses to the
    infinite floats.  The filters, the substitutions and the sort treat
    them as they treat any number, but [int] and the number format do not:
    the values that reach the indicators are modelled with the infinities. *)

Inductive float64 : Type :=
| Finite (q : Q)
| PosInf
| NegInf
| NotANumber.

Definition float_of_cell (c : cell) : float64 :=
  match c with
  | NaN => NotANumber
  | Num q => Finite q
  end.

Definition float_isna (x : float64) : bool :=
  match x with NotANumber => true | _ => false end.

(** [Series.dropna()]: the infinities stay. *)
Definition float_dropna (s : list float64) : list float64 :=
  filter (fun x => negb (float_isna x)) s.

(** [a <= b] on values that are not NaN. *)
Definition float_leb (a b : float64) : bool :=
  match a, b with
  | NotANumber, _ | _, NotANumber => false
  | NegInf, _ => true
  | _, PosInf => true
  | Finite x, Finite y => Qle_bool x y
  | _, _ => false
  end.

Definition float_min2 (a b : float64) : float64 := if float_leb a b then a else b.

(** [Series.min()]. *)
Definition float_series_min (s : list float64) : float64 :=
  match float_dropna s with
  | [] => NotANumber
  | x :: xs => fold_left float_min2 xs x
  end.

(** [safe_min] (lines 84-85) on a column that may hold the infinities. *)
Definition float_safe_min (series : option (list float64)) : option float64 :=
  match series with
  | Some s => if negb (empty (float_dropna s)) then Some (float_series_min s) else None
  | None => None
  end.

(** [bool(x)] of a float: false for zero only. *)
Definition is_true (x : float64) : bool :=
  match x with
  | Finite q => negb (Qeq_bool q 0)
  | _ => true
  end.

(** [int(x)] of a float: truncation towards zero; [OverflowError] for an
    infinity, [ValueError] for NaN. *)
Definition int (x : float64) : result Z :=
  match x with
  | Finite q => Ok (Z.quot (Qnum q) (Zpos (Qden q)))
  | PosInf | NegInf => Raise OverflowError
  | NotANumber => Raise ValueError
  end.

(** What [st.metric] is given: an integer or a text. *)
Inductive metric_value : Type :=
| IntValue (z : Z)
| TextValue (s : string).

(** [int(first_deficit_year) if first_deficit_year else "No deficit"]. *)
Definition first_deficit_year_metric (first_deficit_year : option float64)
  : result metric_value :=
  match first_deficit_year with
  | Some x =>
      if is_true x
      then match int x with
           | Ok z => Ok (IntValue z)
           | Raise e => Raise e
           end
      else Ok (TextValue "No deficit")
  | None => Ok (TextValue "No deficit")
  end.

(** The integer the format [.0f] prints for the magnitude of [q]: the
    nearest one, the even one of two that are equally near. *)
Definition rounded_magnitude (q : Q) : Z :=
  let a := Z.abs (Qnum q) in
  let d := Zpos (Qden q) in
  let fl := (a / d)%Z in
  match (2 * (a mod d) ?= d)%Z with
  | Lt => fl
  | Gt => (fl + 1)%Z
  | Eq => if Z.even fl then fl else (fl + 1)%Z
  end.

(** The format option [,]: a comma before every group of three digits,
    counted from the right; the digits come in reversed. *)
Fixpoint group_rev (rev_digits : list ascii) : list ascii :=
  match rev_digits with
  | a :: b :: c :: (_ :: _) as rest => a :: b :: c :: ","%char :: group_rev rest
  | l => l
  end.

Definition group3 (digits : string) : string :=
  string_of_list_ascii (rev (group_rev (rev (list_ascii_of_string digits)))).

Definition digits (n : Z) : string := NilZero.string_of_uint (N.to_uint (Z.to_N n)).

(** [f"{x:,.0f}"]. *)
Definition format_comma_0f (x : float64) : string :=
  match x with
  | Finite q => (if Qle_bool 0 q then "" else "-") ++ group3 (digits (rounded_magnitude q))
  | PosInf => "inf"
  | NegInf => "-inf"
  | NotANumber => "nan"
  end.

(** [f"{x:,.0f}" if x else "0"], the value of the other three metrics. *)
Definition formatted_metric (x : option float64) : string :=
  match x with
  | Some v => if is_true v then format_comma_0f v else "0"
  | None => "0"
  end.

(** ** Technology drivers (lines 138-158) *)

Inductive tech_panel : Type :=
| NotReported
| AreaChart (title : string) (data : list TechDemandRecord).

Definition technology_drivers (tech_filtered : list TechDemandRecord)
    (base_mineral : string) : tech_panel :=
  if empty tech_filtered then NotReported
  else AreaChart ("Technology Drivers of " ++ base_mineral ++ " Demand") tech_filtered.

(** ** The ranking a run hands over *)



(** A series table with a mineral whose name holds a parenthesis and a
    dash. *)
Definition ex_series : list SupplyDemandRecord :=
  [mkSeries "Li (battery-grade)" "STEPS" 2030 (Num 5) (Num 4) (Num (-1));
   mkSeries "Lithium" "STEPS" 2030 (Num 9) (Num 7) (Num (-2))].

Definition ex_summary : DataFrame :=
  read_frame all_columns [ex_lithium (Num 3) (Num 4); ex_cobalt (Num 5) (Num 6)].

(** A technology table with a compound name. *)
Definition ex_tech_compound : list TechDemandRecord :=
  [mkTech "Lithium - carbonate" "STEPS" "EV" 2030 (Num 2);
   mkTech "Cobalt" "STEPS" "EV" 2030 (Num 1)].

(** ** The pipeline from the widgets (lines 45-90, 165-191) *)

(** [st.selectbox(label, options)]: the option the user picked, one of
    those offered ([pick] counts from the first and stops at the last);
    [None] when there is nothing to offer. *)
Definition selectbox (options : list string) (pick : nat) : option string :=
  nth_error options (Nat.min pick (Nat.pred (List.length options))).

(** The selections, the filters, the KPIs and the ranking in statement
    order; the calls that render are left out.  With [None] for the mineral
    the comparisons of lines 64-72 select nothing and [mineral.split] on
    line 74 raises [AttributeError].  The ranking select box yields [None]
    only for a summary table without rows, and the mask of line 170 then
    selects nothing, as it does for every text. *)
Definition pipeline (re_rest : string -> option (string -> bool))
    (df : list SupplyDemandRecord) (summary : DataFrame) (tech_df : list TechDemandRecord)
    (pick_mineral : nat) (sel_scenario : list string) (pick_rank : nat)
    : result Outputs :=
  match selectbox (mineral_options df) pick_mineral with
  | None => Raise AttributeError
  | Some mineral =>
      match selectbox (rank_scenario_options summary) pick_rank with
      | Some rank_scenario =>
          run_app re_rest df summary tech_df mineral sel_scenario rank_scenario
      | None =>
          run_app re_rest df summary tech_df mineral sel_scenario EmptyString
      end
  end.

(** * Properties *)

Local Open Scope nat_scope.

(** ** Facts about the stable sort *)

Section StableSortFacts.
Context {A : Type} (leb : A -> A -> bool) (label : A -> nat).
Hypothesis leb_total : forall a b, leb a b = true \/ leb b a = true.
Hypothesis leb_trans : forall a b c, leb a b = true -> leb b c = true -> leb a c = true.

Lemma insert_perm (x : A) (l : list A) : Permutation (insert leb x l) (x :: l).
Proof.
  induction l as [|y l IH]; simpl.
  - apply Permutation_refl.
  - destruct (leb x y).
    + apply Permutation_refl.
    + apply perm_trans with (y :: x :: l).
      * apply perm_skip, IH.
      * apply perm_swap.
Qed.

Lemma stable_sort_perm (l : list A) : Permutation (stable_sort leb l) l.
Proof.
  induction l as [|x l IH]; simpl.
  - apply perm_nil.
  - apply perm_trans with (x :: stable_sort leb l).
    + apply insert_perm.
    + apply perm_skip, IH.
Qed.

Lemma insert_sorted (x : A) (l : list A) :
  StronglySorted (precedes leb label) l ->
  Forall (fun y => label x < label y)%nat l ->
  StronglySorted (precedes leb label) (insert leb x l).
Proof.
  induction l as [|y l IH]; simpl; intros Hs Hl.
  - constructor; constructor.
  - inversion Hs as [|? ? Hs' Hy]; subst.
    inversion Hl as [|? ? Hxy Hl']; subst.
    destruct (leb x y) eqn:E.
    + constructor; [exact Hs|].
      constructor.
      * split; auto.
      * rewrite Forall_forall in *. intros z Hz.
        split; [|intros _; apply Hl', Hz].
        apply leb_trans with y; [exact E|]. apply (Hy z Hz).
    + constructor; [apply IH; assumption|].
      assert (Hyx : leb y x = true)
        by (destruct (leb_total x y) as [H|H]; [congruence|exact H]).
      apply Forall_forall. intros z Hz.
      apply (Permutation_in _ (insert_perm x l)) in Hz.
      destruct Hz as [<-|Hz].
      * split; [exact Hyx|]. intros H. congruence.
      * rewrite Forall_forall in Hy. apply Hy, Hz.
Qed.

Lemma stable_sort_sorted (l : list A) :
  StronglySorted (fun a b => label a < label b)%nat l ->
  StronglySorted (precedes leb label) (stable_sort leb l).
Proof.
  induction l as [|x l IH]; simpl; intros Hs.
  - constructor.
  - inversion Hs as [|? ? Hs' Hx]; subst.
    apply insert_sorted; [apply IH, Hs'|].
    rewrite Forall_forall in *. intros y Hy.
    apply Hx. apply (Permutation_in _ (stable_sort_perm l)), Hy.
Qed.
End StableSortFacts.

(** In a strongly sorted list, an earlier position is related to a later
    one. *)
Lemma StronglySorted_nth {A : Type} (R : A -> A -> Prop) (l : list A) :
  StronglySorted R l ->
  forall i j a b, (i < j)%nat ->
    nth_error l i = Some a -> nth_error l j = Some b -> R a b.
Proof.
  induction 1 as [|x l Hs IH Hx]; intros i j a b Hij Ha Hb.
  - destruct i; discriminate.
  - destruct j as [|j]; [lia|].
    destruct i as [|i]; simpl in *.
    + injection Ha as <-. rewrite Forall_forall in Hx.
      apply Hx. eapply nth_error_In; eassumption.
    + apply (IH i j); [lia|assumption..].
Qed.

(** ** The order on keys *)

Lemma cell_leb_total (a b : cell) : cell_leb a b = true \/ cell_leb b a = true.
Proof.
  destruct a as [|x], b as [|y]; simpl; auto.
  destruct (Qlt_le_dec y x) as [H|H].
  - right. apply Qle_bool_iff. apply Qlt_le_weak, H.
  - left. apply Qle_bool_iff, H.
Qed.

Lemma cell_leb_trans (a b c : cell) :
  cell_leb a b = true -> cell_leb b c = true -> cell_leb a c = true.
Proof.
  destruct a as [|x], b as [|y], c as [|z]; simpl; try congruence.
  rewrite !Qle_bool_iff. apply Qle_trans.
Qed.

Lemma keys_leb_cons (c : column) (cs : list column) (a b : Row) :
  keys_leb (c :: cs) a b = true <->
  cell_leb (field c a) (field c b) = true /\
  (cell_leb (field c b) (field c a) = true -> keys_leb cs a b = true).
Proof.
  simpl. destruct (cell_leb (field c a) (field c b));
    destruct (cell_leb (field c b) (field c a)); intuition congruence.
Qed.

Lemma keys_leb_total (by_ : list column) (a b : Row) :
  keys_leb by_ a b = true \/ keys_leb by_ b a = true.
Proof.
  induction by_ as [|c cs IH]; [left; reflexivity|].
  rewrite !keys_leb_cons.
  destruct (cell_leb (field c a) (field c b)) eqn:E1;
    destruct (cell_leb (field c b) (field c a)) eqn:E2.
  - destruct IH; [left|right]; auto.
  - left; split; [reflexivity|discriminate].
  - right; split; [reflexivity|discriminate].
  - destruct (cell_leb_total (field c a) (field c b)); congruence.
Qed.

Lemma keys_leb_trans (by_ : list column) (a b c : Row) :
  keys_leb by_ a b = true -> keys_leb by_ b c = true -> keys_leb by_ a c = true.
Proof.
  induction by_ as [|k ks IH]; [reflexivity|].
  rewrite !keys_leb_cons. intros [Hab Hab'] [Hbc Hbc'].
  split.
  - eapply cell_leb_trans; eassumption.
  - intros Hca. apply IH.
    + apply Hab'. eapply cell_leb_trans; eassumption.
    + apply Hbc'. eapply cell_leb_trans; eassumption.
Qed.

(** ** Running the block on a heap *)

Lemma nth_error_tail {A : Type} (h t : list A) (k : nat) :
  nth_error (h ++ t) (List.length h + k) = nth_error t k.
Proof.
  rewrite nth_error_app2 by lia. f_equal. lia.
Qed.

Lemma update_tail {A : Type} (h t : list A) (k : nat) (x : A) :
  update (List.length h + k) x (h ++ t) = h ++ update k x t.
Proof.
  induction h as [|y h IH]; simpl; [reflexivity|]. now rewrite IH.
Qed.

Lemma deref_old (h t : heap) (l : ref) (df : DataFrame) :
  nth_error h l = Some df -> deref l (h ++ t) = (Ok df, h ++ t).
Proof.
  intros H. unfold deref. rewrite nth_error_app1.
  - now rewrite H.
  - apply nth_error_Some. congruence.
Qed.

Lemma deref_new (h t : heap) (k : nat) (df : DataFrame) :
  nth_error t k = Some df -> deref (List.length h + k) (h ++ t) = (Ok df, h ++ t).
Proof.
  intros H. unfold deref. now rewrite nth_error_tail, H.
Qed.

Lemma new_tail (h t : heap) (df : DataFrame) :
  new df (h ++ t) = (Ok (List.length h + List.length t)%nat, h ++ (t ++ [df])).
Proof.
  unfold new. now rewrite length_app, app_assoc.
Qed.

Lemma store_tail (h t : heap) (k : nat) (df : DataFrame) :
  store (List.length h + k) df (h ++ t) = (Ok tt, h ++ update k df t).
Proof.
  unfold store. now rewrite update_tail.
Qed.

Lemma length_fillna (v : Q) (s : list cell) : List.length (fillna v s) = List.length s.
Proof. apply length_map. Qed.

Lemma length_column_values (c : column) (df : DataFrame) :
  List.length (column_values c df) = List.length (rows df).
Proof. apply length_map. Qed.

Lemma length_range1 (n : nat) : List.length (range1 n) = n.
Proof. unfold range1. now rewrite length_map, length_seq. Qed.

Lemma has_column_mask (c : column) (p : Row -> bool) (df : DataFrame) :
  has_column c (mask_rows p df) = has_column c df.
Proof. reflexivity. Qed.

Lemma column_eqb_eq (a b : column) : column_eqb a b = true <-> a = b.
Proof. destruct a, b; simpl; split; congruence. Qed.

Lemma has_column_assign (c c' : column) (vals : list cell) (df : DataFrame) :
  has_column c (assign c' vals df) = has_column c df || column_eqb c c'.
Proof.
  unfold assign, has_column; cbn [columns].
  destruct (existsb (column_eqb c') (columns df)) eqn:E.
  - destruct (column_eqb c c') eqn:E'; [|now rewrite orb_false_r].
    apply column_eqb_eq in E'. subst. rewrite E. reflexivity.
  - rewrite existsb_app. cbn [existsb]. now rewrite orb_false_r.
Qed.

(** Getting a column the frame has, then putting back values computed from
    it cell by cell. *)
Lemma setitem_tail (h t : heap) (k : nat) (c : column) (vals : list cell) (df : DataFrame) :
  nth_error t k = Some df ->
  List.length vals = List.length (rows df) ->
  setitem (List.length h + k) c vals (h ++ t) = (Ok tt, h ++ update k (assign c vals df) t).
Proof.
  intros Hk Hlen. unfold setitem, bind.
  rewrite (deref_new h t k df Hk), Hlen, Nat.eqb_refl.
  apply store_tail.
Qed.

Lemma getitem_tail (h t : heap) (k : nat) (c : column) (df : DataFrame) :
  nth_error t k = Some df ->
  getitem (List.length h + k) c (h ++ t) =
  (if has_column c df then Ok (column_values c df) else Raise (KeyError [c]), h ++ t).
Proof.
  intros Hk. unfold getitem, bind. rewrite (deref_new h t k df Hk).
  now destruct (has_column c df).
Qed.

Lemma bind_ok {A B : Type} (m : Py A) (k : A -> Py B) (h h' : heap) (a : A) :
  m h = (Ok a, h') -> bind m k h = k a h'.
Proof. intros H. unfold bind. now rewrite H. Qed.

Lemma bind_raise {A B : Type} (m : Py A) (k : A -> Py B) (h h' : heap) (e : exn) :
  m h = (Raise e, h') -> bind m k h = (Raise e, h').
Proof. intros H. unfold bind. now rewrite H. Qed.

Lemma getitem_mask_run (h : heap) (l : ref) (p : Row -> bool) (df : DataFrame) :
  nth_error h l = Some df ->
  getitem_mask l p h = (Ok (List.length h), h ++ [mask_rows p df]).
Proof.
  intros H. unfold getitem_mask, bind, deref. now rewrite H.
Qed.

Lemma copy_tail (h t : heap) (k : nat) (df : DataFrame) :
  nth_error t k = Some df ->
  copy (List.length h + k) (h ++ t) = (Ok (List.length h + List.length t), h ++ (t ++ [df])).
Proof.
  intros H. unfold copy. rewrite (bind_ok _ _ _ _ _ (deref_new h t k df H)).
  apply new_tail.
Qed.

Lemma sort_values_tail (h t : heap) (k : nat) (by_ : list column) (df : DataFrame) :
  nth_error t k = Some df ->
  forallb (fun c => has_column c df) by_ = true ->
  sort_values (List.length h + k) by_ (h ++ t) =
  (Ok (List.length h + List.length t), h ++ (t ++ [sorted_rows by_ df])).
Proof.
  intros H Hby. unfold sort_values. rewrite (bind_ok _ _ _ _ _ (deref_new h t k df H)).
  assert (E : filter (fun c => negb (has_column c df)) by_ = []).
  { clear H. induction by_ as [|c cs IH]; [reflexivity|].
    simpl in *. apply andb_true_iff in Hby as [Hc Hcs].
    rewrite Hc. simpl. apply IH, Hcs. }
  rewrite E. apply new_tail.
Qed.

Lemma len_tail (h t : heap) (k : nat) (df : DataFrame) :
  nth_error t k = Some df ->
  len (List.length h + k) (h ++ t) = (Ok (List.length (rows df)), h ++ t).
Proof.
  intros H. unfold len. now rewrite (bind_ok _ _ _ _ _ (deref_new h t k df H)).
Qed.

Lemma has_column_substituted (c : column) (df : DataFrame) (s : string) :
  has_column c df = true -> has_column c (substituted df s) = true.
Proof.
  intros H. unfold substituted, substituted_deficit, selected.
  now rewrite !has_column_assign, has_column_mask, H.
Qed.

(** What the block does to a heap in which [summary] is a live frame. *)
Lemma ranking_run (h : heap) (summary : ref) (df : DataFrame) (s : string) :
  nth_error h summary = Some df ->
  ranking summary s h =
  if has_column MaxDeficitKt df then
    if has_column FirstDeficitYear df then
      (Ok (List.length h + 2),
       h ++ [selected df s; substituted df s; ranked df s])
    else
      (Raise (KeyError [FirstDeficitYear]),
       h ++ [selected df s; substituted_deficit df s])
  else
    (Raise (KeyError [MaxDeficitKt]), h ++ [selected df s; selected df s]).
Proof.
  intros Hs. unfold ranking.
  rewrite (bind_ok _ _ _ _ _ (getitem_mask_run h summary _ df Hs)).
  fold (selected df s).
  assert (S2 : copy (List.length h) (h ++ [selected df s]) =
               (Ok (List.length h + 1), h ++ [selected df s; selected df s])).
  { rewrite <- (Nat.add_0_r (List.length h)) at 1.
    apply (copy_tail h [selected df s] 0 (selected df s) eq_refl). }
  rewrite (bind_ok _ _ _ _ _ S2). clear S2.
  pose proof (getitem_tail h [selected df s; selected df s] 1
                MaxDeficitKt (selected df s) eq_refl) as S3.
  unfold selected at 3 in S3. rewrite has_column_mask in S3.
  destruct (has_column MaxDeficitKt df) eqn:E1;
    [|apply (bind_raise _ _ _ _ _ S3)].
  rewrite (bind_ok _ _ _ _ _ S3). clear S3.
  assert (S4 : setitem (List.length h + 1) MaxDeficitKt
                 (fillna 0 (column_values MaxDeficitKt (selected df s)))
                 (h ++ [selected df s; selected df s]) =
               (Ok tt, h ++ [selected df s; substituted_deficit df s])).
  { apply (setitem_tail h [selected df s; selected df s] 1 MaxDeficitKt _
             (selected df s) eq_refl).
    now rewrite length_fillna, length_column_values. }
  rewrite (bind_ok _ _ _ _ _ S4). clear S4.
  pose proof (getitem_tail h [selected df s; substituted_deficit df s] 1
                FirstDeficitYear (substituted_deficit df s) eq_refl) as S5.
  assert (E : has_column FirstDeficitYear (substituted_deficit df s) =
              has_column FirstDeficitYear df).
  { unfold substituted_deficit, selected.
    rewrite has_column_assign, has_column_mask. apply orb_false_r. }
  rewrite E in S5. clear E.
  destruct (has_column FirstDeficitYear df) eqn:E2;
    [|apply (bind_raise _ _ _ _ _ S5)].
  rewrite (bind_ok _ _ _ _ _ S5). clear S5.
  assert (S6 : setitem (List.length h + 1) FirstDeficitYear
                 (fillna 9999 (column_values FirstDeficitYear (substituted_deficit df s)))
                 (h ++ [selected df s; substituted_deficit df s]) =
               (Ok tt, h ++ [selected df s; substituted df s])).
  { apply (setitem_tail h [selected df s; substituted_deficit df s] 1
             FirstDeficitYear _ (substituted_deficit df s) eq_refl).
    now rewrite length_fillna, length_column_values. }
  rewrite (bind_ok _ _ _ _ _ S6). clear S6.
  assert (S7 : sort_values (List.length h + 1) [MaxDeficitKt; FirstDeficitYear]
                 (h ++ [selected df s; substituted df s]) =
               (Ok (List.length h + 2),
                h ++ [selected df s; substituted df s;
                      sorted_rows [MaxDeficitKt; FirstDeficitYear] (substituted df s)])).
  { apply (sort_values_tail h [selected df s; substituted df s] 1 _
             (substituted df s) eq_refl).
    simpl. now rewrite !has_column_substituted. }
  rewrite (bind_ok _ _ _ _ _ S7). clear S7.
  set (d := sorted_rows [MaxDeficitKt; FirstDeficitYear] (substituted df s)).
  rewrite (bind_ok _ _ _ _ _
             (len_tail h [selected df s; substituted df s; d] 2 d eq_refl)).
  rewrite (bind_ok _ _ _ _ _
             (setitem_tail h [selected df s; substituted df s; d] 2 RiskRank
                (range1 (List.length (rows d))) d eq_refl
                (length_range1 _))).
  reflexivity.
Qed.

Lemma rankRisk_ok (df : DataFrame) (s : string) :
  has_column MaxDeficitKt df = true ->
  has_column FirstDeficitYear df = true ->
  rankRisk df s = Ok (ranked df s).
Proof.
  intros H1 H2. unfold rankRisk.
  pose proof (ranking_run [df] 0 df s eq_refl) as R.
  rewrite H1, H2 in R.
  now rewrite (bind_ok _ _ _ _ _ R).
Qed.

(** *** The rows of the ranked frame *)

Lemma rows_assign_map (c : column) (f : cell -> cell) (d : DataFrame) :
  rows (assign c (map f (column_values c d)) d) =
  map (fun ir => (fst ir, set_field c (f (field c (snd ir))) (snd ir))) (rows d).
Proof.
  unfold assign, column_values; cbn [rows].
  induction (rows d) as [|ir l IH]; [reflexivity|].
  cbn [map combine fst snd]. now rewrite IH.
Qed.

Lemma rows_substituted (df : DataFrame) (s : string) :
  rows (substituted df s) = map substitute_row (filter (in_scenario s) (rows df)).
Proof.
  unfold substituted, substituted_deficit, fillna.
  rewrite rows_assign_map, rows_assign_map, map_map.
  reflexivity.
Qed.

Lemma nth_error_ranked_from (l : list (nat * Row)) (start k : nat) :
  nth_error
    (map (fun irv => (fst (fst irv), set_field RiskRank (snd irv) (snd (fst irv))))
         (combine l (map rank_cell (seq (S start) (List.length l))))) k =
  option_map (with_rank (start + k)) (nth_error l k).
Proof.
  revert start k. induction l as [|ir l IH]; intros start k.
  - destruct k; reflexivity.
  - destruct k as [|k]; cbn [List.length seq map combine nth_error option_map].
    + now rewrite Nat.add_0_r.
    + rewrite IH. now rewrite Nat.add_succ_r.
Qed.

Lemma nth_error_ranked (df : DataFrame) (s : string) (k : nat) :
  nth_error (rows (ranked df s)) k =
  option_map (with_rank k) (nth_error (sorted_selection df s) k).
Proof.
  unfold ranked, assign, sorted_rows; cbn [rows].
  rewrite rows_substituted.
  apply (nth_error_ranked_from _ 0 k).
Qed.

Lemma length_ranked (df : DataFrame) (s : string) :
  List.length (rows (ranked df s)) = List.length (filter (in_scenario s) (rows df)).
Proof.
  unfold ranked, assign, sorted_rows; cbn [rows].
  rewrite rows_substituted, length_map, length_combine, length_range1, Nat.min_id.
  rewrite (Permutation_length (stable_sort_perm _ _)). apply length_map.
Qed.

(** *** Index labels of a loaded frame *)

Lemma In_combine_seq {A : Type} (l : list A) (start i : nat) (x : A) :
  In (i, x) (combine (seq start (List.length l)) l) <->
  start <= i /\ nth_error l (i - start) = Some x.
Proof.
  revert start. induction l as [|y l IH]; intros start; cbn [List.length seq combine].
  - split; [intros []|]. intros [_ H]. destruct (i - start); discriminate.
  - cbn [In]. rewrite IH. split.
    + intros [H|[H1 H2]].
      * injection H as <- <-. split; [lia|]. now rewrite Nat.sub_diag.
      * split; [lia|]. replace (i - start) with (S (i - S start)) by lia. exact H2.
    + intros [H1 H2]. destruct (Nat.eq_dec i start) as [->|Hne].
      * left. rewrite Nat.sub_diag in H2. injection H2 as <-. reflexivity.
      * right. split; [lia|].
        replace (i - start) with (S (i - S start)) in H2 by lia. exact H2.
Qed.

Lemma In_read_frame (cols : list column) (rs : list Row) (i : nat) (r : Row) :
  In (i, r) (rows (read_frame cols rs)) <-> nth_error rs i = Some r.
Proof.
  unfold read_frame; cbn [rows]. rewrite In_combine_seq, Nat.sub_0_r.
  split; [tauto|]. intros H; split; [lia|exact H].
Qed.

Lemma labels_increase {A : Type} (l : list A) (start : nat) :
  StronglySorted (fun a b : nat * A => fst a < fst b) (combine (seq start (List.length l)) l).
Proof.
  revert start. induction l as [|y l IH]; intros start; cbn [List.length seq combine].
  - constructor.
  - constructor; [apply IH|].
    apply Forall_forall. intros [i x] H. apply In_combine_seq in H. cbn. lia.
Qed.

Lemma StronglySorted_filter {A : Type} (R : A -> A -> Prop) (p : A -> bool) (l : list A) :
  StronglySorted R l -> StronglySorted R (filter p l).
Proof.
  induction 1 as [|x l Hs IH Hx]; cbn; [constructor|].
  destruct (p x); [|exact IH].
  constructor; [exact IH|].
  rewrite Forall_forall in *. intros y Hy. apply filter_In in Hy. apply Hx, Hy.
Qed.

Lemma StronglySorted_map {A B : Type} (R : B -> B -> Prop) (f : A -> B) (l : list A) :
  StronglySorted (fun a b => R (f a) (f b)) l -> StronglySorted R (map f l).
Proof.
  induction 1 as [|x l Hs IH Hx]; cbn; constructor; [exact IH|].
  rewrite Forall_forall in *. intros y Hy. apply in_map_iff in Hy as [z [<- Hz]].
  apply Hx, Hz.
Qed.

Lemma by_key_total (a b : nat * Row) : by_key a b = true \/ by_key b a = true.
Proof. apply keys_leb_total. Qed.

Lemma by_key_trans (a b c : nat * Row) :
  by_key a b = true -> by_key b c = true -> by_key a c = true.
Proof. apply keys_leb_trans. Qed.

Lemma sorted_selection_sorted (cols : list column) (rs : list Row) (s : string) :
  StronglySorted (precedes by_key fst) (sorted_selection (read_frame cols rs) s).
Proof.
  unfold sorted_selection.
  apply stable_sort_sorted; [apply by_key_total|apply by_key_trans|].
  apply (StronglySorted_map (fun a b : nat * Row => fst a < fst b) substitute_row).
  cbn [substitute_row fst].
  apply StronglySorted_filter. apply labels_increase.
Qed.

Lemma sorted_selection_perm (df : DataFrame) (s : string) :
  Permutation (sorted_selection df s)
              (map substitute_row (filter (in_scenario s) (rows df))).
Proof. apply stable_sort_perm. Qed.

Lemma In_sorted_selection (cols : list column) (rs : list Row) (s : string)
    (i : nat) (r : Row) :
  In (i, r) (sorted_selection (read_frame cols rs) s) <->
  exists r0, nth_error rs i = Some r0 /\ scenario r0 = s /\ r = substitute r0.
Proof.
  split.
  - intros H. apply (Permutation_in _ (sorted_selection_perm _ s)) in H.
    apply in_map_iff in H as [[j r0] [E H]].
    apply filter_In in H as [H Hs].
    injection E as <- <-. exists r0. repeat split.
    + apply (In_read_frame cols), H.
    + apply String.eqb_eq, Hs.
  - intros [r0 [H [Hs ->]]].
    apply (Permutation_in _ (Permutation_sym (sorted_selection_perm _ s))).
    apply in_map_iff. exists (i, r0). split; [reflexivity|].
    apply filter_In. split.
    + apply In_read_frame, H.
    + apply String.eqb_eq, Hs.
Qed.

Lemma In_ranked (df : DataFrame) (s : string) (a : nat * Row) :
  In a (rows (ranked df s)) <->
  exists k ir, nth_error (sorted_selection df s) k = Some ir /\ a = with_rank k ir.
Proof.
  split.
  - intros H. apply In_nth_error in H as [k H].
    rewrite nth_error_ranked in H.
    destruct (nth_error (sorted_selection df s) k) as [ir|] eqn:E; [|discriminate].
    injection H as <-. now exists k, ir.
  - intros [k [ir [H ->]]]. apply (nth_error_In _ k).
    now rewrite nth_error_ranked, H.
Qed.

(** *** Ranks and keys *)

Lemma rank_cell_lt (j k : nat) : cell_lt (rank_cell j) (rank_cell k) <-> j < k.
Proof.
  unfold rank_cell, cell_lt. rewrite <- Zlt_Qlt. lia.
Qed.

Lemma risk_rank_with_rank (k : nat) (ir : nat * Row) :
  risk_rank (snd (with_rank k ir)) = rank_cell (S k).
Proof. reflexivity. Qed.

Lemma keys_with_rank (k : nat) (ir : nat * Row) :
  max_deficit_kt (snd (with_rank k ir)) = max_deficit_kt (snd ir) /\
  first_deficit_year (snd (with_rank k ir)) = first_deficit_year (snd ir).
Proof. split; reflexivity. Qed.

Lemma substitute_deficit (r : Row) :
  max_deficit_kt (substitute r) = fill 0 (max_deficit_kt r).
Proof. reflexivity. Qed.

Lemma substitute_year (r : Row) :
  first_deficit_year (substitute r) = fill 9999 (first_deficit_year r).
Proof. reflexivity. Qed.

Lemma fill_num (v : Q) (c : cell) : exists q, fill v c = Num q.
Proof. destruct c as [|q]; [exists v|exists q]; reflexivity. Qed.

(** On rows whose keys are numbers, the comparison of the sort is the
    lexicographic order of the pairs. *)
Lemma keys_leb_key_le (a b : Row) (ma ya mb yb : Q) :
  max_deficit_kt a = Num ma -> first_deficit_year a = Num ya ->
  max_deficit_kt b = Num mb -> first_deficit_year b = Num yb ->
  (keys_leb [MaxDeficitKt; FirstDeficitYear] a b = true <-> key_le a b).
Proof.
  intros Ha Ha' Hb Hb'. unfold key_le, num_lt, num_eq, num_le, cell_lt.
  rewrite !keys_leb_cons. cbn [field keys_leb]. rewrite Ha, Ha', Hb, Hb'.
  cbn [cell_leb]. rewrite !Qle_bool_iff. split.
  - intros [H1 H2]. destruct (Qlt_le_dec ma mb) as [H|H]; [left; exact H|].
    right. split; [apply Qle_antisym; assumption|]. apply H2, H.
  - intros [H|[H1 H2]].
    + split; [apply Qlt_le_weak, H|]. intros H'. exfalso.
      apply (Qlt_irrefl ma). eapply Qlt_le_trans; eassumption.
    + split; [rewrite H1; apply Qle_refl|]. intros _. split; [exact H2|reflexivity].
Qed.

(** Every row of the ranked frame is a selected input row, substituted,
    at some position [k] of the sorted selection, with rank [k + 1]. *)
Lemma ranked_row_origin (cols : list column) (rs : list Row) (s : string) (a : nat * Row) :
  In a (rows (ranked (read_frame cols rs) s)) ->
  exists k r0,
    nth_error (sorted_selection (read_frame cols rs) s) k = Some (fst a, substitute r0) /\
    nth_error rs (fst a) = Some r0 /\
    scenario r0 = s /\
    a = with_rank k (fst a, substitute r0).
Proof.
  intros H. apply In_ranked in H as [k [[i r] [Hk ->]]].
  pose proof (nth_error_In _ _ Hk) as Hin.
  apply In_sorted_selection in Hin as [r0 [H0 [Hs ->]]].
  exists k, r0. cbn [with_rank fst snd]. auto.
Qed.

Lemma key_eq_le (a b : Row) : key_eq a b -> key_le b a.
Proof.
  unfold key_eq, key_le, num_eq, num_le, num_lt, cell_lt.
  destruct (max_deficit_kt a), (max_deficit_kt b),
    (first_deficit_year a), (first_deficit_year b); try tauto.
  intros [H1 H2]. right. split.
  - symmetry; exact H1.
  - rewrite H2. apply Qle_refl.
Qed.

(** C3. In the output of [rankRisk], a row with a smaller [risk_rank] has a
    lexicographically smaller or equal pair (substituted [max_deficit_kt],
    substituted [first_deficit_year]); and of two rows with equal pairs the
    one with the smaller rank is the one that came first in the loaded
    table (the index label of a row is its position there): the sort is
    stable. *)
Theorem ranking_order_law (cols : list column) (rs : list Row) (s : string) :
  has_column MaxDeficitKt (read_frame cols rs) = true ->
  has_column FirstDeficitYear (read_frame cols rs) = true ->
  exists out,
    rankRisk (read_frame cols rs) s = Ok out /\
    forall a b,
      In a (rows out) -> In b (rows out) ->
      num_lt (risk_rank (snd a)) (risk_rank (snd b)) ->
      key_le (snd a) (snd b) /\
      (key_eq (snd a) (snd b) -> fst a < fst b).
Proof.
  intros H1 H2. exists (ranked (read_frame cols rs) s).
  split; [apply rankRisk_ok; assumption|].
  intros a b Ha Hb Hlt.
  apply ranked_row_origin in Ha as [ka [ra [Hka [_ [_ Ea]]]]].
  apply ranked_row_origin in Hb as [kb [rb [Hkb [_ [_ Eb]]]]].
  rewrite Ea, Eb in Hlt |- *. clear Ea Eb.
  rewrite !risk_rank_with_rank in Hlt. apply rank_cell_lt in Hlt.
  assert (Hk : ka < kb) by lia.
  pose proof (StronglySorted_nth _ _ (sorted_selection_sorted cols rs s)
                _ _ _ _ Hk Hka Hkb) as [Hle Hst].
  unfold by_key in Hle, Hst. cbn [snd fst] in Hle, Hst.
  destruct (fill_num 0 (max_deficit_kt ra)) as [ma Hma].
  destruct (fill_num 9999 (first_deficit_year ra)) as [ya Hya].
  destruct (fill_num 0 (max_deficit_kt rb)) as [mb Hmb].
  destruct (fill_num 9999 (first_deficit_year rb)) as [yb Hyb].
  cbn [with_rank fst snd].
  assert (Ka : max_deficit_kt (set_field RiskRank (rank_cell (S ka)) (substitute ra)) = Num ma)
    by exact Hma.
  assert (Ka' : first_deficit_year (set_field RiskRank (rank_cell (S ka)) (substitute ra)) = Num ya)
    by exact Hya.
  assert (Kb : max_deficit_kt (set_field RiskRank (rank_cell (S kb)) (substitute rb)) = Num mb)
    by exact Hmb.
  assert (Kb' : first_deficit_year (set_field RiskRank (rank_cell (S kb)) (substitute rb)) = Num yb)
    by exact Hyb.
  split.
  - apply (keys_leb_key_le _ _ ma ya mb yb Ka Ka' Kb Kb').
    apply (keys_leb_key_le (substitute ra) (substitute rb) ma ya mb yb Hma Hya Hmb Hyb) in Hle.
    apply (keys_leb_key_le (substitute ra) (substitute rb) ma ya mb yb Hma Hya Hmb Hyb).
    exact Hle.
  - intros Heq. apply Hst.
    apply (keys_leb_key_le (substitute rb) (substitute ra) mb yb ma ya Hmb Hyb Hma Hya).
    apply key_eq_le in Heq.
    apply (keys_leb_key_le _ _ mb yb ma ya Kb Kb' Ka Ka') in Heq.
    apply (keys_leb_key_le (substitute rb) (substitute ra) mb yb ma ya Hmb Hyb Hma Hya).
    exact Heq.
Qed.

Lemma ranking_order_law_witness :
  exists out,
    rankRisk (read_frame all_columns [ex_cobalt NaN NaN; ex_lithium NaN NaN; ex_cobalt NaN NaN])
             "STEPS" = Ok out /\
    forall a b,
      In a (rows out) -> In b (rows out) ->
      num_lt (risk_rank (snd a)) (risk_rank (snd b)) ->
      key_le (snd a) (snd b) /\
      (key_eq (snd a) (snd b) -> fst a < fst b).
Proof.
  apply (ranking_order_law all_columns
           [ex_cobalt NaN NaN; ex_lithium NaN NaN; ex_cobalt NaN NaN] "STEPS");
    reflexivity.
Defined.

(** *** Labels and ranks of the ranked frame *)








Lemma substitute_frame (r : Row) :
  mineral (substitute r) = mineral r /\
  scenario (substitute r) = scenario r /\
  gap_2030_kt (substitute r) = gap_2030_kt r /\
  gap_2040_kt (substitute r) = gap_2040_kt r.
Proof. repeat split. Qed.



(** C2. The example of the specification: for scenario "STEPS", a Lithium
    row with both deficit columns missing and a Cobalt row with
    [max_deficit_kt] 120 and [first_deficit_year] 2031 (whatever the gap
    columns hold) are ranked Lithium 1, Cobalt 2, Lithium carrying the
    substituted 0 and 9999. *)
Theorem ranking_example (g1 g2 g3 g4 : cell) :
  rankRisk (read_frame all_columns [ex_lithium g1 g2; ex_cobalt g3 g4]) "STEPS" =
  Ok (mkFrame
        [FirstDeficitYear; MaxDeficitKt; Gap2030Kt; Gap2040Kt; RiskRank]
        [(0, mkRow "Lithium" "STEPS" (Num 9999) (Num 0) g1 g2 (Num 1));
         (1, mkRow "Cobalt" "STEPS" (Num 2031) (Num 120) g3 g4 (Num 2))]).
Proof. reflexivity. Qed.

(** On the example of the specification the row without a reported deficit
    is ranked first, not last. *)
Lemma missing_deficit_ranks_first_on_example :
  ~ missing_deficit_ranks_last all_columns [ex_lithium NaN NaN; ex_cobalt NaN NaN] "STEPS".
Proof.
  intros H.
  specialize (H _
                (0, mkRow "Lithium" "STEPS" (Num 9999) (Num 0) NaN NaN (Num 1))
                (1, mkRow "Cobalt" "STEPS" (Num 2031) (Num 120) NaN NaN (Num 2))
                (ex_lithium NaN NaN) (ex_cobalt NaN NaN)
                eq_refl).
  cbn in H.
  assert (C : (2 < 1)%Q).
  { apply H; auto. discriminate. }
  discriminate C.
Qed.

Lemma sorted_selection_key (cols : list column) (rs : list Row) (s : string)
    (ka kb : nat) (ia ib : nat) (ra rb : Row) :
  ka < kb ->
  nth_error (sorted_selection (read_frame cols rs) s) ka = Some (ia, substitute ra) ->
  nth_error (sorted_selection (read_frame cols rs) s) kb = Some (ib, substitute rb) ->
  cell_leb (fill 0 (max_deficit_kt ra)) (fill 0 (max_deficit_kt rb)) = true.
Proof.
  intros Hk Ha Hb.
  pose proof (StronglySorted_nth _ _ (sorted_selection_sorted cols rs s)
                _ _ _ _ Hk Ha Hb) as [Hle _].
  unfold by_key in Hle. cbn [snd] in Hle.
  apply keys_leb_cons in Hle as [Hle _]. exact Hle.
Qed.

(** C1 (amended). Before sorting every missing [max_deficit_kt] becomes 0
    and every missing [first_deficit_year] becomes 9999 (reported values
    are kept); as a result a row whose [max_deficit_kt] is missing is ranked
    after every row whose reported [max_deficit_kt] is negative, and before
    every row whose reported [max_deficit_kt] is positive. *)
Theorem missing_deficit_rank (cols : list column) (rs : list Row) (s : string) :
  has_column MaxDeficitKt (read_frame cols rs) = true ->
  has_column FirstDeficitYear (read_frame cols rs) = true ->
  exists out,
    rankRisk (read_frame cols rs) s = Ok out /\
    (forall i r, In (i, r) (rows out) ->
       exists r0, nth_error rs i = Some r0 /\
         (max_deficit_kt r0 = NaN -> max_deficit_kt r = Num 0) /\
         (first_deficit_year r0 = NaN -> first_deficit_year r = Num 9999) /\
         (forall q, max_deficit_kt r0 = Num q -> max_deficit_kt r = Num q) /\
         (forall q, first_deficit_year r0 = Num q -> first_deficit_year r = Num q)) /\
    (forall a b ra rb q,
       In a (rows out) -> In b (rows out) ->
       nth_error rs (fst a) = Some ra -> nth_error rs (fst b) = Some rb ->
       max_deficit_kt ra = NaN -> max_deficit_kt rb = Num q ->
       ((q < 0)%Q -> num_lt (risk_rank (snd b)) (risk_rank (snd a))) /\
       ((0 < q)%Q -> num_lt (risk_rank (snd a)) (risk_rank (snd b)))).
Proof.
  intros H1 H2. exists (ranked (read_frame cols rs) s).
  split; [apply rankRisk_ok; assumption|].
  split.
  { intros i r H. apply ranked_row_origin in H as [k [r0 [_ [H0 [_ E]]]]].
    cbn [fst] in *. injection E as ->. exists r0.
    split; [exact H0|].
    cbn [set_field max_deficit_kt first_deficit_year].
    repeat split; intros; match goal with E : _ = _ |- _ => now rewrite E end. }
  intros a b ra rb q Ha Hb Hra Hrb Hna Hq.
  apply ranked_row_origin in Ha as [ka [ra' [Hka [Hra' [_ Ea]]]]].
  apply ranked_row_origin in Hb as [kb [rb' [Hkb [Hrb' [_ Eb]]]]].
  assert (ra' = ra) by congruence. assert (rb' = rb) by congruence. subst ra' rb'.
  rewrite Ea, Eb. rewrite !risk_rank_with_rank.
  unfold num_lt. rewrite !rank_cell_lt.
  split; intros Hsign.
  - destruct (Nat.lt_trichotomy ka kb) as [Hk|[Hk|Hk]]; [| |lia]; exfalso.
    + pose proof (sorted_selection_key _ _ _ _ _ _ _ _ _ Hk Hka Hkb) as Hle.
      rewrite Hna, Hq in Hle. cbn in Hle. apply Qle_bool_iff in Hle.
      apply (Qlt_irrefl q). eapply Qlt_le_trans; eassumption.
    + subst kb.
      assert (E : (fst a, substitute ra) = (fst b, substitute rb)) by congruence.
      apply (f_equal (fun x => max_deficit_kt (snd x))) in E. cbn [snd] in E.
      rewrite !substitute_deficit, Hna, Hq in E. cbn in E.
      injection E as <-. apply (Qlt_irrefl 0 Hsign).
  - destruct (Nat.lt_trichotomy ka kb) as [Hk|[Hk|Hk]]; [lia| |]; exfalso.
    + subst kb.
      assert (E : (fst a, substitute ra) = (fst b, substitute rb)) by congruence.
      apply (f_equal (fun x => max_deficit_kt (snd x))) in E. cbn [snd] in E.
      rewrite !substitute_deficit, Hna, Hq in E. cbn in E.
      injection E as <-. apply (Qlt_irrefl 0 Hsign).
    + pose proof (sorted_selection_key _ _ _ _ _ _ _ _ _ Hk Hkb Hka) as Hle.
      rewrite Hna, Hq in Hle. cbn in Hle. apply Qle_bool_iff in Hle.
      apply (Qlt_irrefl 0). eapply Qlt_le_trans; eassumption.
Qed.

Lemma missing_deficit_rank_witness :
  exists out,
    rankRisk (read_frame all_columns
                [ex_lithium NaN NaN; mkRow "Nickel" "STEPS" (Num 2030) (Num (-5)) NaN NaN NaN])
             "STEPS" = Ok out /\
    (forall i r, In (i, r) (rows out) ->
       exists r0,
         nth_error [ex_lithium NaN NaN; mkRow "Nickel" "STEPS" (Num 2030) (Num (-5)) NaN NaN NaN] i
           = Some r0 /\
         (max_deficit_kt r0 = NaN -> max_deficit_kt r = Num 0) /\
         (first_deficit_year r0 = NaN -> first_deficit_year r = Num 9999) /\
         (forall q, max_deficit_kt r0 = Num q -> max_deficit_kt r = Num q) /\
         (forall q, first_deficit_year r0 = Num q -> first_deficit_year r = Num q)) /\
    (forall a b ra rb q,
       In a (rows out) -> In b (rows out) ->
       nth_error [ex_lithium NaN NaN; mkRow "Nickel" "STEPS" (Num 2030) (Num (-5)) NaN NaN NaN]
                 (fst a) = Some ra ->
       nth_error [ex_lithium NaN NaN; mkRow "Nickel" "STEPS" (Num 2030) (Num (-5)) NaN NaN NaN]
                 (fst b) = Some rb ->
       max_deficit_kt ra = NaN -> max_deficit_kt rb = Num q ->
       ((q < 0)%Q -> num_lt (risk_rank (snd b)) (risk_rank (snd a))) /\
       ((0 < q)%Q -> num_lt (risk_rank (snd a)) (risk_rank (snd b)))).
Proof.
  apply (missing_deficit_rank all_columns
           [ex_lithium NaN NaN; mkRow "Nickel" "STEPS" (Num 2030) (Num (-5)) NaN NaN NaN]
           "STEPS"); reflexivity.
Defined.

(** ** The displayed table and the heap *)

Lemma getitem_display_tail (h t : heap) (k : nat) (df : DataFrame) :
  nth_error t k = Some df ->
  getitem_display (List.length h + k) (h ++ t) =
  (match filter (fun c => negb (has_column c df))
                [RiskRank; FirstDeficitYear; MaxDeficitKt; Gap2030Kt; Gap2040Kt] with
   | [] => Ok (map (fun ir => (fst ir, display_of (snd ir))) (rows df))
   | missing => Raise (KeyError missing)
   end, h ++ t).
Proof.
  intros H. unfold getitem_display.
  rewrite (bind_ok _ _ _ _ _ (deref_new h t k df H)).
  destruct (filter _ _); reflexivity.
Qed.

(** The block with its projection, on a heap in which [summary] is live:
    the result depends on the summary frame and the scenario only, and the
    heap grows by the frames the block builds. *)
Lemma ranking_display_run (h : heap) (summary : ref) (df : DataFrame) (s : string) :
  nth_error h summary = Some df ->
  exists t, ranking_display summary s h = (display_outcome df s, h ++ t).
Proof.
  intros Hs. unfold ranking_display, display_outcome.
  pose proof (ranking_run h summary df s Hs) as R.
  destruct (has_column MaxDeficitKt df);
    [|eexists; apply (bind_raise _ _ _ _ _ R)].
  destruct (has_column FirstDeficitYear df);
    [|eexists; apply (bind_raise _ _ _ _ _ R)].
  rewrite (bind_ok _ _ _ _ _ R). clear R.
  exists [selected df s; substituted df s; ranked df s].
  pose proof (getitem_display_tail h [selected df s; substituted df s; ranked df s] 2
                (ranked df s) eq_refl) as D.
  destruct (filter _ _) as [|c missing].
  - rewrite (bind_ok _ _ _ _ _ D).
    now rewrite (bind_ok _ _ _ _ _
                   (deref_new h [selected df s; substituted df s; ranked df s] 2
                      (ranked df s) eq_refl)).
  - apply (bind_raise _ _ _ _ _ D).
Qed.

Lemma ranking_display_dangling (h : heap) (summary : ref) (s : string) :
  nth_error h summary = None ->
  ranking_display summary s h = (Raise NameError, h).
Proof.
  intros Hs. unfold ranking_display, ranking, getitem_mask, bind, deref.
  now rewrite Hs.
Qed.

Lemma firstn_app_exact {A : Type} (h t : list A) : firstn (List.length h) (h ++ t) = h.
Proof.
  induction h as [|x h IH]; [reflexivity|]. cbn. now rewrite IH.
Qed.

(** C9. The ranking block leaves the loaded summary table as it was: every
    frame that is live before the block runs, the summary frame among them,
    is unchanged afterwards, whether the block returns or raises; the
    [fillna] assignments and the rank assignment land in frames the block
    itself built. *)
Theorem ranking_leaves_summary (h : heap) (summary : ref) (s : string) :
  firstn (List.length h) (snd (ranking_display summary s h)) = h /\
  nth_error (snd (ranking_display summary s h)) summary = nth_error h summary.
Proof.
  destruct (nth_error h summary) as [df|] eqn:Hs.
  - destruct (ranking_display_run h summary df s Hs) as [t ->]. cbn [snd].
    split; [apply firstn_app_exact|].
    rewrite nth_error_app1; [exact Hs|].
    apply nth_error_Some. congruence.
  - rewrite (ranking_display_dangling h summary s Hs). cbn [snd]. split.
    + rewrite <- (app_nil_r h) at 2. apply firstn_app_exact.
    + exact Hs.
Qed.

(** An assignment made through a reference does change the frame it refers
    to: the heap is a real store, not a copy per use. *)
Example setitem_changes_the_frame :
  snd (setitem 0 MaxDeficitKt [Num 0] [read_frame all_columns [ex_lithium NaN NaN]]) <>
  [read_frame all_columns [ex_lithium NaN NaN]].
Proof. discriminate. Qed.

Lemma rankRisk_display_outcome (df : DataFrame) (s : string) :
  rankRisk_display df s =
  match display_outcome df s with Ok (_, d) => Ok d | Raise e => Raise e end.
Proof.
  unfold rankRisk_display.
  destruct (ranking_display_run [df] 0 df s eq_refl) as [t ->]. reflexivity.
Qed.

Lemma has_column_ranked (c : column) (df : DataFrame) (s : string) :
  has_column c (ranked df s) =
  has_column c df || column_eqb c MaxDeficitKt || column_eqb c FirstDeficitYear
  || column_eqb c RiskRank.
Proof.
  unfold ranked. rewrite has_column_assign.
  change (has_column c (sorted_rows [MaxDeficitKt; FirstDeficitYear] (substituted df s)))
    with (has_column c (substituted df s)).
  unfold substituted, substituted_deficit, selected.
  now rewrite !has_column_assign, has_column_mask.
Qed.

Lemma rankRisk_display_ok (df : DataFrame) (s : string) :
  has_column MaxDeficitKt df = true ->
  has_column FirstDeficitYear df = true ->
  has_column Gap2030Kt df = true ->
  has_column Gap2040Kt df = true ->
  rankRisk_display df s =
  Ok (map (fun ir => (fst ir, display_of (snd ir))) (rows (ranked df s))).
Proof.
  intros H1 H2 H3 H4. rewrite rankRisk_display_outcome. unfold display_outcome.
  rewrite H1, H2. cbn [filter].
  rewrite !has_column_ranked, H1, H2, H3, H4. cbn [column_eqb].
  rewrite !orb_false_r, orb_true_r. reflexivity.
Qed.

(** C10. The table handed to the presenter is the projection of the ranked
    frame itself, so a row whose [max_deficit_kt] was missing shows 0 and a
    row whose [first_deficit_year] was missing shows 9999 in those very
    columns: the substitution is not confined to a sort key. *)
Theorem display_shows_substitutes (cols : list column) (rs : list Row) (s : string) :
  has_column MaxDeficitKt (read_frame cols rs) = true ->
  has_column FirstDeficitYear (read_frame cols rs) = true ->
  has_column Gap2030Kt (read_frame cols rs) = true ->
  has_column Gap2040Kt (read_frame cols rs) = true ->
  exists out shown,
    rankRisk (read_frame cols rs) s = Ok out /\
    rankRisk_display (read_frame cols rs) s = Ok shown /\
    shown = map (fun ir => (fst ir, display_of (snd ir))) (rows out) /\
    forall i d, In (i, d) shown ->
      exists r0, nth_error rs i = Some r0 /\ scenario r0 = s /\
        d_mineral d = mineral r0 /\
        (max_deficit_kt r0 = NaN -> d_max_deficit_kt d = Num 0) /\
        (first_deficit_year r0 = NaN -> d_first_deficit_year d = Num 9999).
Proof.
  intros H1 H2 H3 H4.
  exists (ranked (read_frame cols rs) s).
  exists (map (fun ir => (fst ir, display_of (snd ir))) (rows (ranked (read_frame cols rs) s))).
  split; [apply rankRisk_ok; assumption|].
  split; [apply rankRisk_display_ok; assumption|].
  split; [reflexivity|].
  intros i d H. apply in_map_iff in H as [[j r] [E H]].
  cbn [fst snd] in E. injection E as -> <-.
  apply ranked_row_origin in H as [k [r0 [_ [H0 [Hs E]]]]].
  cbn [fst] in *. injection E as ->. exists r0.
  split; [exact H0|]. split; [exact Hs|]. split; [reflexivity|].
  cbn [display_of d_max_deficit_kt d_first_deficit_year set_field
       max_deficit_kt first_deficit_year].
  split; intros E; now rewrite E.
Qed.

Lemma display_shows_substitutes_witness :
  exists out shown,
    rankRisk (read_frame all_columns [ex_lithium NaN NaN; ex_cobalt NaN NaN]) "STEPS" = Ok out /\
    rankRisk_display (read_frame all_columns [ex_lithium NaN NaN; ex_cobalt NaN NaN]) "STEPS"
      = Ok shown /\
    shown = map (fun ir => (fst ir, display_of (snd ir))) (rows out) /\
    forall i d, In (i, d) shown ->
      exists r0, nth_error [ex_lithium NaN NaN; ex_cobalt NaN NaN] i = Some r0 /\
        scenario r0 = "STEPS" /\
        d_mineral d = mineral r0 /\
        (max_deficit_kt r0 = NaN -> d_max_deficit_kt d = Num 0) /\
        (first_deficit_year r0 = NaN -> d_first_deficit_year d = Num 9999).
Proof.
  apply (display_shows_substitutes all_columns [ex_lithium NaN NaN; ex_cobalt NaN NaN] "STEPS");
    reflexivity.
Defined.

(** ** The whole run *)

(** The outcome of one run, as a function of the loaded tables and the
    widget values. *)
Lemma run_app_outcome (re_rest : string -> option (string -> bool))
    (df : list SupplyDemandRecord) (summary : DataFrame)
    (tech_df : list TechDemandRecord)
    (sel_mineral : string) (sel_scenario : list string) (rank_scenario : string) :
  run_app re_rest df summary tech_df sel_mineral sel_scenario rank_scenario =
  match tech_filtered re_rest tech_df sel_mineral sel_scenario with
  | Raise e => Raise e
  | Ok tech =>
      match display_outcome summary rank_scenario with
      | Raise e => Raise e
      | Ok rd =>
          let sf := mask_rows (summary_mask sel_mineral sel_scenario) summary in
          Ok (mkOutputs (filtered df sel_mineral sel_scenario) sf tech
                        (computeKPIs sf) (fst rd) (snd rd))
      end
  end.
Proof.
  unfold run_app, app.
  rewrite (bind_ok _ _ _ _ _ (getitem_mask_run [summary] 0 _ summary eq_refl)).
  cbn [List.length List.app].
  unfold bind at 1. unfold lift at 1.
  destruct (tech_filtered re_rest tech_df sel_mineral sel_scenario) as [tech|e];
    [|reflexivity].
  unfold bind at 1. unfold deref at 1. cbn [nth_error].
  destruct (ranking_display_run
              [summary; mask_rows (summary_mask sel_mineral sel_scenario) summary]
              0 summary rank_scenario eq_refl) as [t R].
  unfold bind at 1. rewrite R.
  destruct (display_outcome summary rank_scenario) as [rd|e]; reflexivity.
Qed.

(** What [rankRisk] returns, in terms of the outcome of the ranking block
    with its displayed table. *)
Lemma rankRisk_outcome (summary : DataFrame) (rank_scenario : string) :
  rankRisk summary rank_scenario =
  match display_outcome summary rank_scenario with
  | Ok rd => Ok (fst rd)
  | Raise e =>
      if has_column MaxDeficitKt summary && has_column FirstDeficitYear summary
      then Ok (ranked summary rank_scenario) else Raise e
  end.
Proof.
  unfold display_outcome.
  destruct (has_column MaxDeficitKt summary) eqn:E1;
    destruct (has_column FirstDeficitYear summary) eqn:E2; cbn [andb].
  - rewrite (rankRisk_ok _ _ E1 E2). now destruct (filter _ _).
  - unfold rankRisk. pose proof (ranking_run [summary] 0 summary rank_scenario eq_refl) as R.
    rewrite E1, E2 in R. now rewrite (bind_raise _ _ _ _ _ R).
  - unfold rankRisk. pose proof (ranking_run [summary] 0 summary rank_scenario eq_refl) as R.
    rewrite E1 in R. now rewrite (bind_raise _ _ _ _ _ R).
  - unfold rankRisk. pose proof (ranking_run [summary] 0 summary rank_scenario eq_refl) as R.
    rewrite E1 in R. now rewrite (bind_raise _ _ _ _ _ R).
Qed.




(** A run whose technology filter raises never reaches the ranking block. *)
Lemma run_app_stops_at_tech_filter (re_rest : string -> option (string -> bool))
    (df : list SupplyDemandRecord) (summary : DataFrame) (tech_df : list TechDemandRecord)
    (sel_mineral : string) (sel_scenario : list string) (rank_scenario : string) (e : exn) :
  tech_filtered re_rest tech_df sel_mineral sel_scenario = Raise e ->
  run_app re_rest df summary tech_df sel_mineral sel_scenario rank_scenario = Raise e.
Proof.
  intros H. now rewrite run_app_outcome, H.
Qed.

(** ** The series filter *)

(** C6. A row is in the output of the series filter exactly when it is a row
    of the table whose mineral is the selected one, character for
    character, and whose scenario is among the selected ones; the output has
    at most as many rows as the table. *)
Theorem filtered_rows (df : list SupplyDemandRecord) (M : string) (Sel : list string) :
  (forall r, In r (filtered df M Sel) <->
             In r df /\ sd_mineral r = M /\ In (sd_scenario r) Sel) /\
  List.length (filtered df M Sel) <= List.length df.
Proof.
  split.
  - intros r. unfold filtered. rewrite filter_In, andb_true_iff, String.eqb_eq.
    unfold isin. rewrite existsb_exists.
    split.
    + intros (Hin & Hm & x & Hx & E). apply String.eqb_eq in E. subst x. auto.
    + intros (Hin & Hm & HS). repeat split; auto.
      exists (sd_scenario r). split; [assumption|apply String.eqb_refl].
  - apply filter_length_le.
Qed.

(** Equality of minerals distinguishes case. *)
Example filtered_is_case_sensitive :
  filtered [mkSeries "lithium" "STEPS" 2030 (Num 1) (Num 2) (Num 1);
            mkSeries "Lithium" "STEPS" 2030 (Num 3) (Num 2) (Num (-1))]
           "Lithium" ["STEPS"; "APS"]
  = [mkSeries "Lithium" "STEPS" 2030 (Num 3) (Num 2) (Num (-1))].
Proof. reflexivity. Qed.

(** ** The KPI rule *)

Lemma qmin_le_l (a b : Q) : (qmin a b <= a)%Q.
Proof.
  unfold qmin. destruct (Qle_bool a b) eqn:E.
  - apply Qle_refl.
  - destruct (Qlt_le_dec b a) as [H|H].
    + now apply Qlt_le_weak.
    + apply Qle_bool_iff in H. congruence.
Qed.

Lemma qmin_le_r (a b : Q) : (qmin a b <= b)%Q.
Proof.
  unfold qmin. destruct (Qle_bool a b) eqn:E.
  - now apply Qle_bool_iff.
  - apply Qle_refl.
Qed.

Lemma qmin_cases (a b : Q) : qmin a b = a \/ qmin a b = b.
Proof.
  unfold qmin. destruct (Qle_bool a b); auto.
Qed.

(** Folding [qmin] over a list picks one of its elements, below all of
    them. *)
Lemma fold_qmin_min (qs : list Q) (q : Q) :
  In (fold_left qmin qs q) (q :: qs) /\
  forall x, In x (q :: qs) -> (fold_left qmin qs q <= x)%Q.
Proof.
  revert q. induction qs as [|y qs IH]; intros q; cbn [fold_left].
  - split; [now left|]. intros x [<-|[]]. apply Qle_refl.
  - destruct (IH (qmin q y)) as [Hin Hle]. split.
    + destruct Hin as [E|Hin].
      * rewrite <- E. destruct (qmin_cases q y) as [-> | ->]; [now left|right; now left].
      * right. now right.
    + intros x [<-|[<-|Hx]].
      * eapply Qle_trans; [apply Hle; now left|apply qmin_le_l].
      * eapply Qle_trans; [apply Hle; now left|apply qmin_le_r].
      * apply Hle. now right.
Qed.

Lemma In_dropna (s : list cell) (q : Q) : In q (dropna s) <-> In (Num q) s.
Proof.
  induction s as [|[|x] s IH]; cbn [dropna In].
  - tauto.
  - rewrite IH. split; [auto|]. intros [H|H]; [discriminate|assumption].
  - rewrite IH. split; intros [H|H]; auto; left; congruence.
Qed.

Lemma dropna_all_missing (s : list cell) :
  Forall (fun v => v = NaN) s -> dropna s = [].
Proof.
  induction 1 as [|v s Hv _ IH]; [reflexivity|]. subst v. exact IH.
Qed.

(** [safe_min] on a column that is there. *)
Lemma safe_min_reported (s : list cell) (q : Q) :
  In (Num q) s -> exists m, safe_min (Some s) = Some (Num m) /\ is_min_of m s.
Proof.
  intros Hq. apply In_dropna in Hq.
  unfold safe_min, series_min, is_min_of.
  destruct (dropna s) as [|x xs] eqn:E; [destruct Hq|].
  cbn [empty negb].
  destruct (fold_qmin_min xs x) as [Hin Hle].
  exists (fold_left qmin xs x). split; [reflexivity|]. split.
  - apply In_dropna. now rewrite E.
  - intros y Hy. apply Hle. rewrite <- E. now apply In_dropna.
Qed.

Lemma safe_min_no_value (s : list cell) :
  Forall (fun v => v = NaN) s -> safe_min (Some s) = None.
Proof.
  intros H. unfold safe_min. now rewrite (dropna_all_missing s H).
Qed.

Lemma safe_min_get_rule (c : column) (sf : DataFrame) :
  kpi_rule c sf (safe_min (get sf c)).
Proof.
  unfold kpi_rule, get. split.
  - intros [H|[H|H]].
    + destruct (has_column c sf); [|reflexivity].
      apply safe_min_no_value. unfold column_values. rewrite H. constructor.
    + now rewrite H.
    + destruct (has_column c sf); [|reflexivity]. now apply safe_min_no_value.
  - intros q Hc Hq. rewrite Hc. now apply (safe_min_reported _ q).
Qed.

(** C5. Each of the four KPIs follows the same rule on its own column: it
    is the minimum of the values that are not missing, and it is the
    absent value [None] when the filtered summary has no rows, when the
    column is absent, and when every value of the column is missing.
    [computeKPIs] is a total function: it raises nothing. *)
Theorem computeKPIs_rule (sf : DataFrame) :
  kpi_rule FirstDeficitYear sf (kpi_first_deficit_year (computeKPIs sf)) /\
  kpi_rule MaxDeficitKt sf (kpi_max_deficit (computeKPIs sf)) /\
  kpi_rule Gap2030Kt sf (kpi_gap_2030 (computeKPIs sf)) /\
  kpi_rule Gap2040Kt sf (kpi_gap_2040 (computeKPIs sf)).
Proof.
  unfold computeKPIs. cbn [kpi_first_deficit_year kpi_max_deficit kpi_gap_2030 kpi_gap_2040].
  repeat split; apply safe_min_get_rule.
Qed.

(** The three cases and the case of a reported value leave nothing out. *)
Lemma kpi_rule_covers (c : column) (sf : DataFrame) :
  no_value_case c sf \/
  (has_column c sf = true /\ exists q, In (Num q) (column_values c sf)).
Proof.
  unfold no_value_case.
  destruct (has_column c sf); [|auto].
  induction (column_values c sf) as [|[|q] s IH].
  - left. right. right. constructor.
  - destruct IH as [[H|[H|H]]|[_ [q Hq]]].
    + left. now left.
    + discriminate.
    + left. right. right. now constructor.
    + right. split; [reflexivity|]. exists q. now right.
  - right. split; [reflexivity|]. exists q. now left.
Qed.

(** The KPIs of the filtered summary of the example table: the earliest
    deficit year and the smallest gap over the two selected rows, and no
    value for the column that holds missing values only. *)
Example computeKPIs_example :
  computeKPIs (mask_rows (summary_mask "Cobalt" ["STEPS"; "APS"])
                 (read_frame all_columns
                    [mkRow "Cobalt" "STEPS" (Num 2031) (Num 120) NaN (Num (-4)) NaN;
                     mkRow "Lithium" "STEPS" (Num 2025) (Num 7) NaN (Num (-9)) NaN;
                     mkRow "Cobalt" "APS" (Num 2028) NaN NaN (Num (-6)) NaN]))
  = mkKPIs (Some (Num 2028)) (Some (Num 120)) None (Some (Num (-6))).
Proof. reflexivity. Qed.

(** ** The technology filter *)

Lemma plain_char_inv (c : ascii) :
  plain_char c = true ->
  other_syntax c = false /\ Ascii.eqb c "("%char = false /\
  Ascii.eqb c ")"%char = false /\ Ascii.eqb c "."%char = false.
Proof.
  unfold plain_char. rewrite negb_true_iff, !orb_false_iff. tauto.
Qed.

Lemma all_plain_no_other_syntax (pat : string) :
  all_plain pat = true -> uses_other_syntax pat = false.
Proof.
  induction pat as [|c pat IH]; cbn [all_plain uses_other_syntax]; [reflexivity|].
  rewrite andb_true_iff. intros [Hc Hp].
  apply plain_char_inv in Hc. destruct Hc as (-> & _). now rewrite IH.
Qed.

Lemma parse_atoms_plain (pat : string) :
  all_plain pat = true -> parse_atoms 0 pat = Some (literals pat).
Proof.
  induction pat as [|c pat IH]; cbn [all_plain parse_atoms literals]; [reflexivity|].
  rewrite andb_true_iff. intros [Hc Hp].
  apply plain_char_inv in Hc. destruct Hc as (_ & -> & -> & ->).
  now rewrite IH.
Qed.

Lemma match_here_literals (pat text : string) :
  match_here (literals pat) text = prefix_ci pat text.
Proof.
  revert text. induction pat as [|c pat IH]; intros text; cbn [literals].
  - now destruct text.
  - destruct text as [|d text]; cbn [match_here prefix_ci atom_matches]; [reflexivity|].
    now rewrite IH.
Qed.

Lemma search_literals (pat text : string) :
  search (literals pat) text = contains_ci pat text.
Proof.
  induction text as [|d text IH]; cbn [search contains_ci];
    rewrite match_here_literals; [reflexivity|]. now rewrite IH.
Qed.

(** When the base mineral holds no character of the pattern language, the
    script's filter is the case-insensitive substring filter. *)
Lemma tech_filtered_plain (re_rest : string -> option (string -> bool))
    (tech_df : list TechDemandRecord) (sel_mineral : string) (sel_scenario : list string) :
  all_plain (base_mineral sel_mineral) = true ->
  tech_filtered re_rest tech_df sel_mineral sel_scenario =
  Ok (spec_filterTech tech_df sel_mineral sel_scenario).
Proof.
  intros H. unfold tech_filtered, re_compile, spec_filterTech.
  rewrite (all_plain_no_other_syntax _ H), (parse_atoms_plain _ H).
  f_equal. apply filter_ext. intros r. now rewrite search_literals.
Qed.

Example base_mineral_example :
  base_mineral "Lithium - carbonate - battery grade" = "Lithium".
Proof. reflexivity. Qed.

Example tech_filtered_example :
  tech_filtered no_re ex_tech "LITHIUM - carbonate" ["STEPS"; "APS"] =
  Ok [mkTech "Lithium" "STEPS" "EV" 2030 (Num 2);
      mkTech "lithium chemicals" "APS" "EV" 2030 (Num 2)].
Proof. reflexivity. Qed.

(** C7. The base mineral is handed to [str.contains] as a pattern, not as
    a text to look for.  For the mineral "PGMs (other than iridium)" the
    parentheses form a group: the technology row of that very mineral is a
    row the substring filter selects and the script's filter drops, so the
    script reports an empty table; and a mineral with an opening
    parenthesis alone makes the filter raise.  This holds whatever the rest
    of the pattern language does. *)
Theorem tech_filtered_reads_a_pattern (re_rest : string -> option (string -> bool)) :
  base_mineral "PGMs (other than iridium)" = "PGMs (other than iridium)" /\
  spec_filterTech ex_tech "PGMs (other than iridium)" ["STEPS"] =
    [mkTech "PGMs (other than iridium)" "STEPS" "Hydrogen" 2030 (Num 1)] /\
  tech_filtered re_rest ex_tech "PGMs (other than iridium)" ["STEPS"] = Ok [] /\
  tech_filtered re_rest ex_tech "PGMs (other" ["STEPS"] = Raise ReError.
Proof.
  repeat split.
Qed.

(** ** Trimming *)

Lemma lstrip_spec (s : string) :
  exists a, s = (a ++ lstrip s)%string /\ all_space a = true /\ starts_with_space (lstrip s) = false.
Proof.
  induction s as [|c s (a & E & Ha & Hs)]; cbn [lstrip].
  - exists EmptyString. auto.
  - destruct (is_space c) eqn:Hc.
    + exists (String c a). cbn [String.append all_space]. rewrite Hc, Ha, <- E. auto.
    + exists EmptyString. cbn [String.append all_space starts_with_space]. auto.
Qed.

Lemma rstrip_cons (c : ascii) (s : string) :
  rstrip (String c s) =
  if all_space s then (if is_space c then EmptyString else String c EmptyString)
  else String c (rstrip s).
Proof.
  cbn [rstrip].
  assert (H : forall t, (rstrip t = EmptyString <-> all_space t = true)).
  { induction t as [|d t IH]; cbn [rstrip all_space]; [tauto|].
    destruct (rstrip t) eqn:E.
    - rewrite (proj1 IH eq_refl), andb_true_r.
      destruct (is_space d); split; congruence.
    - destruct (all_space t); [destruct IH as [_ IH]; discriminate (IH eq_refl)|].
      rewrite andb_false_r. split; discriminate. }
  destruct (rstrip s) eqn:E.
  - now rewrite (proj1 (H s) E).
  - destruct (all_space s) eqn:Hs; [|reflexivity].
    rewrite (proj2 (H s) Hs) in E. discriminate.
Qed.

Lemma rstrip_spec (s : string) :
  exists b, s = (rstrip s ++ b)%string /\ all_space b = true /\ ends_with_space (rstrip s) = false.
Proof.
  induction s as [|c s (b & E & Hb & Hs)].
  - exists EmptyString. auto.
  - rewrite rstrip_cons. destruct (all_space s) eqn:Hall.
    + destruct (is_space c) eqn:Hc.
      * exists (String c s). cbn [String.append all_space ends_with_space].
        rewrite Hc, Hall. auto.
      * exists s. cbn [String.append ends_with_space]. auto.
    + exists b. cbn [String.append]. rewrite <- E. repeat split; auto.
      cbn [ends_with_space]. destruct (rstrip s) eqn:R; [|exact Hs].
      cbn [String.append] in E. subst b. congruence.
Qed.

Lemma rstrip_keeps_start (s : string) :
  starts_with_space s = false -> starts_with_space (rstrip s) = false.
Proof.
  destruct s as [|c s]; [reflexivity|]. cbn [starts_with_space]. intros Hc.
  rewrite rstrip_cons. destruct (all_space s); rewrite ?Hc; cbn [starts_with_space]; auto.
Qed.

Lemma lstrip_fixed (s : string) : starts_with_space s = false -> lstrip s = s.
Proof.
  destruct s as [|c s]; [reflexivity|]. cbn [starts_with_space lstrip]. now intros ->.
Qed.

Lemma rstrip_fixed (s : string) : ends_with_space s = false -> rstrip s = s.
Proof.
  induction s as [|c s IH]; [reflexivity|]. intros H. rewrite rstrip_cons.
  destruct s as [|d s].
  - cbn [all_space]. cbn [ends_with_space] in H. now rewrite H.
  - change (ends_with_space (String c (String d s))) with (ends_with_space (String d s)) in H.
    rewrite (IH H).
    destruct (all_space (String d s)) eqn:Hall; [|reflexivity].
    exfalso. clear IH. revert d H Hall. induction s as [|e s IHs]; intros d H Hall.
    + cbn in H, Hall. rewrite H in Hall. discriminate.
    + apply (IHs e).
      * exact H.
      * cbn [all_space] in Hall. apply andb_true_iff in Hall. tauto.
Qed.

Lemma strip_trimmed (s : string) :
  starts_with_space (strip s) = false /\ ends_with_space (strip s) = false.
Proof.
  unfold strip. split.
  - apply rstrip_keeps_start. destruct (lstrip_spec s) as (a & _ & _ & H). exact H.
  - destruct (rstrip_spec (lstrip s)) as (b & _ & _ & H). exact H.
Qed.

Lemma strip_fixed (s : string) :
  starts_with_space s = false -> ends_with_space s = false -> strip s = s.
Proof.
  intros H1 H2. unfold strip. now rewrite (lstrip_fixed s H1), (rstrip_fixed s H2).
Qed.

Lemma strip_idempotent (s : string) : strip (strip s) = strip s.
Proof.
  destruct (strip_trimmed s). now apply strip_fixed.
Qed.

(** [strip] removes whitespace around the text and nothing else. *)
Lemma strip_spec (s : string) :
  exists a b, s = (a ++ strip s ++ b)%string /\ all_space a = true /\ all_space b = true.
Proof.
  destruct (lstrip_spec s) as (a & Ea & Ha & _).
  destruct (rstrip_spec (lstrip s)) as (b & Eb & Hb & _).
  exists a, b. unfold strip. rewrite <- Eb. auto.
Qed.

(** ** The loaders *)

Lemma In_map_iff_nth {A B : Type} (f : A -> B) (l : list A) (i : nat) (y : B) :
  nth_error (map f l) i = Some y <-> exists x, nth_error l i = Some x /\ y = f x.
Proof.
  rewrite nth_error_map. destruct (nth_error l i) as [x|]; cbn [option_map].
  - split; [intros [= <-]; eauto|intros (x' & [= <-] & ->); reflexivity].
  - split; [discriminate|intros (x & H & _); discriminate].
Qed.

(** X1. [load_summary] keeps the rows of the file in their order, under the
    labels 0, 1, ...; a loaded row differs from the parsed one in that
    its mineral and scenario are trimmed, so neither begins or ends with
    whitespace; and loading the rows of a loaded frame again gives the same
    frame. *)
Theorem load_summary_normalised (cols : list column) (raw : list Row) :
  List.length (rows (load_summary cols raw)) = List.length raw /\
  (forall i r, In (i, r) (rows (load_summary cols raw)) <->
     exists r0, nth_error raw i = Some r0 /\
       r = mkRow (strip (mineral r0)) (strip (scenario r0)) (first_deficit_year r0)
                 (max_deficit_kt r0) (gap_2030_kt r0) (gap_2040_kt r0) (risk_rank r0)) /\
  (forall i r, In (i, r) (rows (load_summary cols raw)) ->
     starts_with_space (mineral r) = false /\ ends_with_space (mineral r) = false /\
     starts_with_space (scenario r) = false /\ ends_with_space (scenario r) = false) /\
  load_summary cols (map snd (rows (load_summary cols raw))) = load_summary cols raw.
Proof.
  assert (Hin : forall i r, In (i, r) (rows (load_summary cols raw)) <->
     exists r0, nth_error raw i = Some r0 /\
       r = mkRow (strip (mineral r0)) (strip (scenario r0)) (first_deficit_year r0)
                 (max_deficit_kt r0) (gap_2030_kt r0) (gap_2040_kt r0) (risk_rank r0)).
  { intros i r. unfold load_summary. rewrite In_read_frame. apply In_map_iff_nth. }
  repeat split.
  - unfold load_summary, read_frame. cbn [rows].
    rewrite length_combine, length_seq, length_map. apply Nat.min_id.
  - apply Hin.
  - apply Hin.
  - apply Hin in H. destruct H as (r0 & _ & ->). apply strip_trimmed.
  - apply Hin in H. destruct H as (r0 & _ & ->). apply strip_trimmed.
  - apply Hin in H. destruct H as (r0 & _ & ->). apply strip_trimmed.
  - apply Hin in H. destruct H as (r0 & _ & ->). apply strip_trimmed.
  - unfold load_summary, read_frame. cbn [rows].
    set (l := map _ raw).
    assert (E : map snd (combine (seq 0 (List.length l)) l) = l).
    { generalize 0. induction l as [|x l IH]; intros n; [reflexivity|].
      cbn [List.length seq combine map snd]. now rewrite IH. }
    rewrite E. f_equal. f_equal.
    + f_equal. unfold l. now rewrite !length_map.
    + unfold l. rewrite map_map. apply map_ext. intros r.
      cbn [mineral scenario first_deficit_year max_deficit_kt gap_2030_kt gap_2040_kt risk_rank].
      now rewrite !strip_idempotent.
Qed.

(** X2. [load_supply_demand] and [load_tech_demand] keep the rows of the
    file in their order and trim the text columns they normalise; loading
    is idempotent; and a row of the file is found by the series filter
    under its trimmed mineral and scenario, stray whitespace in the file
    notwithstanding. *)
Theorem load_tables_normalised
    (raw : list SupplyDemandRecord) (raw_tech : list TechDemandRecord) :
  List.length (load_supply_demand raw) = List.length raw /\
  List.length (load_tech_demand raw_tech) = List.length raw_tech /\
  (forall r, In r (load_supply_demand raw) ->
     starts_with_space (sd_mineral r) = false /\ ends_with_space (sd_mineral r) = false /\
     starts_with_space (sd_scenario r) = false /\ ends_with_space (sd_scenario r) = false) /\
  (forall r, In r (load_tech_demand raw_tech) ->
     starts_with_space (t_mineral r) = false /\ ends_with_space (t_mineral r) = false /\
     starts_with_space (t_scenario r) = false /\ ends_with_space (t_scenario r) = false /\
     starts_with_space (t_technology r) = false /\ ends_with_space (t_technology r) = false) /\
  load_supply_demand (load_supply_demand raw) = load_supply_demand raw /\
  load_tech_demand (load_tech_demand raw_tech) = load_tech_demand raw_tech /\
  (forall r0 Sel, In r0 raw -> In (strip (sd_scenario r0)) Sel ->
     In (mkSeries (strip (sd_mineral r0)) (strip (sd_scenario r0)) (sd_year r0)
                  (sd_demand_kt r0) (sd_supply_kt r0) (sd_gap_kt r0))
        (filtered (load_supply_demand raw) (strip (sd_mineral r0)) Sel)).
Proof.
  unfold load_supply_demand, load_tech_demand.
  split; [apply length_map|]. split; [apply length_map|].
  split; [|split; [|split; [|split]]].
  - intros r H. apply in_map_iff in H. destruct H as (r0 & <- & _).
    cbn [sd_mineral sd_scenario]. repeat split; apply strip_trimmed.
  - intros r H. apply in_map_iff in H. destruct H as (r0 & <- & _).
    cbn [t_mineral t_scenario t_technology]. repeat split; apply strip_trimmed.
  - rewrite map_map. apply map_ext. intros r.
    cbn [sd_mineral sd_scenario sd_year sd_demand_kt sd_supply_kt sd_gap_kt].
    now rewrite !strip_idempotent.
  - rewrite map_map. apply map_ext. intros r.
    cbn [t_mineral t_scenario t_technology t_year t_demand_kt].
    now rewrite !strip_idempotent.
  - intros r0 Sel Hin HS. unfold filtered. apply filter_In. split.
    + apply in_map_iff. exists r0. auto.
    + cbn [sd_mineral sd_scenario]. rewrite String.eqb_refl. cbn [andb].
      unfold isin. apply existsb_exists. exists (strip (sd_scenario r0)).
      split; [assumption|apply String.eqb_refl].
Qed.

Example load_supply_demand_example :
  filtered (load_supply_demand
              [mkSeries " Lithium" "STEPS  " 2030 (Num 1) (Num 2) (Num 1);
               mkSeries "Cobalt " "STEPS" 2030 (Num 3) (Num 2) (Num (-1))])
           "Lithium" ["STEPS"]
  = [mkSeries "Lithium" "STEPS" 2030 (Num 1) (Num 2) (Num 1)].
Proof. reflexivity. Qed.

(** ** The base mineral *)

Lemma has_dash_append (a b : string) :
  has_dash (a ++ b)%string = has_dash a || has_dash b.
Proof.
  induction a as [|c a IH]; cbn [String.append has_dash]; [reflexivity|].
  now rewrite IH, orb_assoc.
Qed.

Lemma before_dash_no_dash (s : string) : has_dash (before_dash s) = false.
Proof.
  induction s as [|c s IH]; cbn [before_dash]; [reflexivity|].
  destruct (Ascii.eqb c dash) eqn:E; [reflexivity|].
  cbn [has_dash]. now rewrite E, IH.
Qed.

Lemma before_dash_fixed (s : string) : has_dash s = false -> before_dash s = s.
Proof.
  induction s as [|c s IH]; cbn [before_dash has_dash]; [reflexivity|].
  rewrite orb_false_iff. intros [-> H]. now rewrite IH.
Qed.

Lemma before_dash_prefix (s : string) : exists rest, s = (before_dash s ++ rest)%string.
Proof.
  induction s as [|c s [rest E]]; cbn [before_dash].
  - now exists EmptyString.
  - destruct (Ascii.eqb c dash).
    + now exists (String c s).
    + exists rest. cbn [String.append]. now rewrite <- E.
Qed.

Lemma append_assoc (a b c : string) : ((a ++ b) ++ c = a ++ b ++ c)%string.
Proof.
  induction a as [|x a IH]; cbn [String.append]; [reflexivity|]. now rewrite IH.
Qed.

(** The base mineral is a piece of the selected mineral. *)
Lemma base_mineral_shape_pieces (sel_mineral : string) :
  exists a b, sel_mineral = (a ++ base_mineral sel_mineral ++ b)%string.
Proof.
  unfold base_mineral.
  destruct (strip_spec (before_dash sel_mineral)) as (a & b & E & _ & _).
  destruct (before_dash_prefix sel_mineral) as [rest R].
  exists a, (b ++ rest)%string.
  rewrite <- !append_assoc. rewrite (append_assoc a). now rewrite <- E.
Qed.

(** X3. The base mineral holds no dash and neither begins nor ends with
    whitespace; it is a piece of the selected mineral; and a selected
    mineral without dash and without surrounding whitespace is its own
    base mineral. *)
Theorem base_mineral_shape (sel_mineral : string) :
  has_dash (base_mineral sel_mineral) = false /\
  starts_with_space (base_mineral sel_mineral) = false /\
  ends_with_space (base_mineral sel_mineral) = false /\
  (exists a b, sel_mineral = (a ++ base_mineral sel_mineral ++ b)%string) /\
  (has_dash sel_mineral = false -> starts_with_space sel_mineral = false ->
   ends_with_space sel_mineral = false -> base_mineral sel_mineral = sel_mineral).
Proof.
  unfold base_mineral.
  destruct (strip_spec (before_dash sel_mineral)) as (a & b & E & _ & _).
  destruct (before_dash_prefix sel_mineral) as [rest R].
  split; [|split; [|split; [|split]]].
  - pose proof (before_dash_no_dash sel_mineral) as H.
    rewrite E, !has_dash_append, !orb_false_iff in H. tauto.
  - apply strip_trimmed.
  - apply strip_trimmed.
  - apply base_mineral_shape_pieces.
  - intros H1 H2 H3. rewrite (before_dash_fixed _ H1). now apply strip_fixed.
Qed.

(** ** The technology filter on plain names *)

Lemma prefix_ci_append (p t : string) : prefix_ci p (p ++ t)%string = true.
Proof.
  induction p as [|c p IH]; cbn [String.append prefix_ci]; [now destruct t|].
  now rewrite Ascii.eqb_refl, IH.
Qed.

Lemma contains_ci_here (p t : string) : prefix_ci p t = true -> contains_ci p t = true.
Proof.
  intros H. destruct t; cbn [contains_ci]; now rewrite H.
Qed.

Lemma contains_ci_factor (a p b : string) : contains_ci p (a ++ p ++ b)%string = true.
Proof.
  induction a as [|c a IH]; cbn [String.append].
  - apply contains_ci_here, prefix_ci_append.
  - cbn [contains_ci]. rewrite IH. apply orb_true_r.
Qed.

(** X4. When the base mineral holds no character of the pattern language,
    the technology filter returns a table, every returned row is a row of
    the technology table in a selected scenario, and every technology row
    whose mineral is the selected mineral and whose scenario is selected
    is returned: the loose match includes the exact one. *)
Theorem tech_filtered_keeps_selected_mineral
    (re_rest : string -> option (string -> bool))
    (tech_df : list TechDemandRecord) (sel_mineral : string) (sel_scenario : list string) :
  all_plain (base_mineral sel_mineral) = true ->
  exists out,
    tech_filtered re_rest tech_df sel_mineral sel_scenario = Ok out /\
    (forall r, In r out -> In r tech_df /\ In (t_scenario r) sel_scenario) /\
    (forall r, In r tech_df -> t_mineral r = sel_mineral ->
               In (t_scenario r) sel_scenario -> In r out).
Proof.
  intros H. exists (spec_filterTech tech_df sel_mineral sel_scenario).
  split; [now apply tech_filtered_plain|].
  assert (S : forall r, isin (t_scenario r) sel_scenario = true <->
                        In (t_scenario r) sel_scenario).
  { intros r. unfold isin. rewrite existsb_exists. split.
    - intros (x & Hx & E). apply String.eqb_eq in E. now subst x.
    - intros Hx. exists (t_scenario r). split; [assumption|apply String.eqb_refl]. }
  unfold spec_filterTech. split.
  - intros r Hr. apply filter_In in Hr. destruct Hr as [Hin Hr].
    apply andb_true_iff in Hr. split; [assumption|]. now apply S.
  - intros r Hin Hm Hs. apply filter_In. split; [assumption|].
    apply andb_true_iff. split; [|now apply S].
    destruct (base_mineral_shape_pieces sel_mineral) as (a & b & E).
    rewrite Hm. rewrite E at 2. apply contains_ci_factor.
Qed.

Lemma tech_filtered_keeps_selected_mineral_witness :
  exists out,
    tech_filtered no_re ex_tech_compound "Lithium - carbonate" ["STEPS"] = Ok out /\
    (forall r, In r out -> In r ex_tech_compound /\ In (t_scenario r) ["STEPS"]) /\
    (forall r, In r ex_tech_compound -> t_mineral r = "Lithium - carbonate" ->
               In (t_scenario r) ["STEPS"] -> In r out) /\
    In (mkTech "Lithium - carbonate" "STEPS" "EV" 2030 (Num 2)) out.
Proof.
  destruct (tech_filtered_keeps_selected_mineral no_re ex_tech_compound
              "Lithium - carbonate" ["STEPS"] eq_refl) as (out & E & A & K).
  exists out. split; [exact E|]. split; [exact A|]. split; [exact K|].
  apply K; simpl; auto.
Defined.

Lemma lstrip_all_space (s : string) : all_space s = true -> lstrip s = EmptyString.
Proof.
  induction s as [|c s IH]; cbn [all_space lstrip]; [reflexivity|].
  rewrite andb_true_iff. intros [-> H]. now apply IH.
Qed.

(** X5. When nothing but whitespace stands before the first dash of the
    selected mineral, the base mineral is the empty text, a pattern found in
    every value: the technology filter then returns every technology row of
    the selected scenarios, whatever its mineral. *)
Theorem tech_filtered_empty_base
    (re_rest : string -> option (string -> bool))
    (tech_df : list TechDemandRecord) (sel_mineral : string) (sel_scenario : list string) :
  all_space (before_dash sel_mineral) = true ->
  base_mineral sel_mineral = EmptyString /\
  tech_filtered re_rest tech_df sel_mineral sel_scenario =
  Ok (filter (fun r => isin (t_scenario r) sel_scenario) tech_df).
Proof.
  intros H.
  assert (E : base_mineral sel_mineral = EmptyString).
  { unfold base_mineral, strip. now rewrite (lstrip_all_space _ H). }
  split; [exact E|].
  unfold tech_filtered, re_compile. rewrite E. cbn [uses_other_syntax parse_atoms].
  f_equal. apply filter_ext. intros r.
  destruct (t_mineral r); reflexivity.
Qed.

Lemma tech_filtered_empty_base_witness :
  base_mineral " - unnamed" = EmptyString /\
  tech_filtered no_re ex_tech " - unnamed" ["APS"] =
  Ok (filter (fun r => isin (t_scenario r) ["APS"]) ex_tech).
Proof.
  apply (tech_filtered_empty_base no_re ex_tech " - unnamed" ["APS"]). reflexivity.
Defined.

(** ** Widget options *)

Lemma ascii_compare_refl (a : ascii) : Ascii.compare a a = Eq.
Proof. unfold Ascii.compare. apply N.compare_refl. Qed.

Lemma string_leb_trans (a b c : string) :
  String.leb a b = true -> String.leb b c = true -> String.leb a c = true.
Proof.
  unfold String.leb. revert b c.
  induction a as [|x a IH]; intros [|y b] [|z c]; cbn [String.compare];
    try reflexivity; try discriminate.
  destruct (Ascii.compare x y) eqn:Exy; [| |discriminate].
  - apply Ascii.compare_eq_iff in Exy. subst y.
    destruct (Ascii.compare x z); [apply IH|reflexivity|discriminate].
  - intros _. destruct (Ascii.compare y z) eqn:Eyz; [| |discriminate]; intros _.
    + apply Ascii.compare_eq_iff in Eyz. subst z. now rewrite Exy.
    + unfold Ascii.compare in *. rewrite N.compare_lt_iff in Exy, Eyz.
      rewrite (proj2 (N.compare_lt_iff _ _)); [reflexivity|].
      now apply N.lt_trans with (N_of_ascii y).
Qed.

Lemma string_leb_neq_ltb (a b : string) :
  String.leb a b = true -> a <> b -> String.ltb a b = true.
Proof.
  unfold String.leb, String.ltb. intros H N.
  destruct (String.compare a b) eqn:E; [|reflexivity|discriminate].
  apply String.compare_eq_iff in E. contradiction.
Qed.

Section StableSortOrder.
Context {A : Type} (leb : A -> A -> bool).
Hypothesis leb_total : forall a b, leb a b = true \/ leb b a = true.
Hypothesis leb_trans : forall a b c, leb a b = true -> leb b c = true -> leb a c = true.

Lemma insert_ascending (x : A) (l : list A) :
  StronglySorted (fun a b => leb a b = true) l ->
  StronglySorted (fun a b => leb a b = true) (insert leb x l).
Proof.
  induction 1 as [|y l Hl IH Hy]; cbn [insert].
  - repeat constructor.
  - destruct (leb x y) eqn:E.
    + constructor; [now constructor|].
      constructor; [exact E|].
      eapply Forall_impl; [|exact Hy]. intros z Hz. now apply leb_trans with y.
    + constructor; [exact IH|].
      assert (Hyx : leb y x = true) by (destruct (leb_total x y); congruence).
      apply Forall_forall. intros z Hz.
      apply (Permutation_in _ (insert_perm leb x l)) in Hz.
      destruct Hz as [<-|Hz]; [exact Hyx|].
      rewrite Forall_forall in Hy. now apply Hy.
Qed.

Lemma stable_sort_ascending (l : list A) :
  StronglySorted (fun a b => leb a b = true) (stable_sort leb l).
Proof.
  induction l as [|x l IH]; cbn [stable_sort]; [constructor|].
  now apply insert_ascending.
Qed.

(** Sorting a list that is in order changes nothing. *)
Lemma stable_sort_fixed (l : list A) :
  StronglySorted (fun a b => leb a b = true) l -> stable_sort leb l = l.
Proof.
  induction 1 as [|x l Hl IH Hx]; cbn [stable_sort]; [reflexivity|].
  rewrite IH. destruct l as [|y l]; [reflexivity|].
  cbn [insert]. inversion Hx as [|? ? Hxy _]; subst. now rewrite Hxy.
Qed.
End StableSortOrder.

Lemma In_unique (l : list string) (x : string) : In x (unique l) <-> In x l.
Proof.
  induction l as [|y l IH]; cbn [unique In]; [tauto|].
  rewrite filter_In, IH, negb_true_iff, String.eqb_neq.
  destruct (String.eqb_spec y x) as [->|N]; [tauto|].
  split; [tauto|]. intros [H|H]; [tauto|]. right. split; [assumption|congruence].
Qed.

Lemma NoDup_unique (l : list string) : NoDup (unique l).
Proof.
  induction l as [|y l IH]; cbn [unique]; constructor.
  - rewrite filter_In, String.eqb_refl. cbn [negb]. intros [_ H]. discriminate.
  - now apply NoDup_filter.
Qed.

Lemma ascending_NoDup_strict (l : list string) :
  StronglySorted (fun a b => String.leb a b = true) l -> NoDup l ->
  StronglySorted (fun a b => String.ltb a b = true) l.
Proof.
  induction 1 as [|x s Hs IH Hx]; intros N; constructor.
  - apply IH. now inversion N.
  - inversion N as [|? ? Hnin _]; subst.
    rewrite Forall_forall in *. intros y Hy.
    apply string_leb_neq_ltb; [now apply Hx|]. intros ->. contradiction.
Qed.

Lemma sorted_unique_spec (l : list string) :
  StronglySorted (fun a b => String.ltb a b = true) (sorted (unique l)) /\
  (forall x, In x (sorted (unique l)) <-> In x l).
Proof.
  unfold sorted.
  pose proof (stable_sort_perm String.leb (unique l)) as P.
  split.
  - assert (N : NoDup (stable_sort String.leb (unique l))).
    { apply (Permutation_NoDup (Permutation_sym P)), NoDup_unique. }
    apply ascending_NoDup_strict; [|exact N].
    apply (stable_sort_ascending String.leb String.leb_total string_leb_trans).
  - intros x. split; intros H.
    + apply In_unique. exact (Permutation_in _ P H).
    + apply (Permutation_in _ (Permutation_sym P)). now apply In_unique.
Qed.

(** X6. Each list of options (minerals, scenarios, ranking scenarios) is
    in strictly ascending order, hence without repetition, and offers
    exactly the values that occur in the column it is read from. *)
Theorem options_sorted_distinct (df : list SupplyDemandRecord) (summary : DataFrame) :
  (StronglySorted (fun a b => String.ltb a b = true) (mineral_options df) /\
   forall m, In m (mineral_options df) <-> exists r, In r df /\ sd_mineral r = m) /\
  (StronglySorted (fun a b => String.ltb a b = true) (scenario_options df) /\
   forall s, In s (scenario_options df) <-> exists r, In r df /\ sd_scenario r = s) /\
  (StronglySorted (fun a b => String.ltb a b = true) (rank_scenario_options summary) /\
   forall s, In s (rank_scenario_options summary) <->
             exists ir, In ir (rows summary) /\ scenario (snd ir) = s).
Proof.
  unfold mineral_options, scenario_options, rank_scenario_options.
  repeat split; try apply sorted_unique_spec.
  - intros H. apply sorted_unique_spec, in_map_iff in H. destruct H as (r & E & H). eauto.
  - intros (r & H & E). apply sorted_unique_spec, in_map_iff. eauto.
  - intros H. apply sorted_unique_spec, in_map_iff in H. destruct H as (r & E & H). eauto.
  - intros (r & H & E). apply sorted_unique_spec, in_map_iff. eauto.
  - intros H. apply sorted_unique_spec, in_map_iff in H. destruct H as (r & E & H). eauto.
  - intros (r & H & E). apply sorted_unique_spec, in_map_iff. eauto.
Qed.

Example mineral_options_example :
  mineral_options [mkSeries "Nickel" "STEPS" 2030 NaN NaN NaN;
                   mkSeries "Cobalt" "STEPS" 2030 NaN NaN NaN;
                   mkSeries "Nickel" "APS" 2030 NaN NaN NaN;
                   mkSeries "Copper" "APS" 2030 NaN NaN NaN]
  = ["Cobalt"; "Copper"; "Nickel"].
Proof. reflexivity. Qed.

Lemma isin_In (s : string) (values : list string) : isin s values = true <-> In s values.
Proof.
  unfold isin. rewrite existsb_exists. split.
  - intros (x & Hx & E). apply String.eqb_eq in E. now subst x.
  - intros H. exists s. split; [assumption|apply String.eqb_refl].
Qed.

(** X7. For every mineral the select box offers, under the default
    selection of scenarios (all of them), the series filter returns
    exactly the rows of that mineral, and at least one. *)
Theorem offered_mineral_has_rows (df : list SupplyDemandRecord) (m : string) :
  In m (mineral_options df) ->
  filtered df m (scenario_default df) = filter (fun r => String.eqb (sd_mineral r) m) df /\
  filtered df m (scenario_default df) <> [].
Proof.
  intros H.
  assert (E : filtered df m (scenario_default df) =
              filter (fun r => String.eqb (sd_mineral r) m) df).
  { unfold filtered. apply filter_ext_in. intros r Hr.
    assert (S : isin (sd_scenario r) (scenario_default df) = true).
    { apply isin_In. unfold scenario_default. apply In_unique, in_map. exact Hr. }
    rewrite S. apply andb_true_r. }
  split; [exact E|]. rewrite E.
  apply sorted_unique_spec, in_map_iff in H. destruct H as (r & Hm & Hr).
  intros C.
  assert (Hin : In r (filter (fun r => String.eqb (sd_mineral r) m) df)).
  { apply filter_In. split; [assumption|]. now apply String.eqb_eq. }
  rewrite C in Hin. destruct Hin.
Qed.

Lemma offered_mineral_has_rows_witness :
  filtered [mkSeries "Nickel" "STEPS" 2030 NaN NaN NaN; mkSeries "Cobalt" "APS" 2030 NaN NaN NaN]
           "Cobalt"
           (scenario_default
              [mkSeries "Nickel" "STEPS" 2030 NaN NaN NaN;
               mkSeries "Cobalt" "APS" 2030 NaN NaN NaN])
  = filter (fun r => String.eqb (sd_mineral r) "Cobalt")
           [mkSeries "Nickel" "STEPS" 2030 NaN NaN NaN; mkSeries "Cobalt" "APS" 2030 NaN NaN NaN] /\
  filtered [mkSeries "Nickel" "STEPS" 2030 NaN NaN NaN; mkSeries "Cobalt" "APS" 2030 NaN NaN NaN]
           "Cobalt"
           (scenario_default
              [mkSeries "Nickel" "STEPS" 2030 NaN NaN NaN;
               mkSeries "Cobalt" "APS" 2030 NaN NaN NaN])
  <> [].
Proof.
  apply (offered_mineral_has_rows
           [mkSeries "Nickel" "STEPS" 2030 NaN NaN NaN; mkSeries "Cobalt" "APS" 2030 NaN NaN NaN]
           "Cobalt").
  vm_compute. left. reflexivity.
Defined.

(** X8. For every scenario the ranking select box offers, on a summary
    frame that has both key columns, the ranking block returns a frame
    with at least one row; its first row is of that scenario and carries
    rank 1. *)
Theorem offered_rank_scenario_has_rows (df : DataFrame) (s : string) :
  has_column MaxDeficitKt df = true ->
  has_column FirstDeficitYear df = true ->
  In s (rank_scenario_options df) ->
  exists out first rest,
    rankRisk df s = Ok out /\
    rows out = first :: rest /\
    scenario (snd first) = s /\
    risk_rank (snd first) = Num 1.
Proof.
  intros H1 H2 H.
  apply sorted_unique_spec, in_map_iff in H. destruct H as (ir & Hs & Hir).
  pose proof (nth_error_ranked df s 0) as N.
  pose proof (length_ranked df s) as L.
  assert (Hin : In ir (filter (in_scenario s) (rows df))).
  { apply filter_In. split; [assumption|]. unfold in_scenario. now apply String.eqb_eq. }
  destruct (rows (ranked df s)) as [|first rest] eqn:R.
  { destruct (filter (in_scenario s) (rows df)); [destruct Hin|discriminate L]. }
  exists (ranked df s), first, rest.
  split; [now apply rankRisk_ok|]. split; [exact R|].
  cbn [nth_error] in N.
  destruct (sorted_selection df s) as [|x sel] eqn:Nx; [discriminate N|].
  cbn [option_map] in N. injection N as ->.
  split; [|reflexivity].
  assert (Hx : In x (sorted_selection df s)) by (rewrite Nx; now left).
  clear Nx. rename Hx into Nx.
  apply (Permutation_in _ (sorted_selection_perm df s)), in_map_iff in Nx.
  destruct Nx as (y & <- & Hy). apply filter_In in Hy. destruct Hy as [_ Hy].
  unfold in_scenario in Hy. apply String.eqb_eq in Hy.
  unfold with_rank, substitute_row. cbn [snd fst].
  destruct (snd y). exact Hy.
Qed.

Lemma offered_rank_scenario_has_rows_witness :
  exists out first rest,
    rankRisk (read_frame all_columns [ex_lithium NaN NaN; ex_cobalt NaN NaN]) "STEPS" = Ok out /\
    rows out = first :: rest /\
    scenario (snd first) = "STEPS" /\
    risk_rank (snd first) = Num 1.
Proof.
  apply (offered_rank_scenario_has_rows
           (read_frame all_columns [ex_lithium NaN NaN; ex_cobalt NaN NaN]) "STEPS");
    [reflexivity|reflexivity|vm_compute; left; reflexivity].
Defined.

(** ** Missing columns *)

Lemma columns_assign_present (c : column) (vals : list cell) (df : DataFrame) :
  has_column c df = true -> columns (assign c vals df) = columns df.
Proof.
  intros H. unfold assign. cbn [columns]. now rewrite H.
Qed.

Lemma columns_ranked (df : DataFrame) (s : string) :
  has_column MaxDeficitKt df = true ->
  has_column FirstDeficitYear df = true ->
  columns (ranked df s) =
  if has_column RiskRank df then columns df else columns df ++ [RiskRank].
Proof.
  intros H1 H2.
  assert (E : columns (substituted df s) = columns df).
  { unfold substituted, substituted_deficit.
    rewrite columns_assign_present.
    - rewrite columns_assign_present; [reflexivity|].
      unfold selected. now rewrite has_column_mask.
    - rewrite has_column_assign. unfold selected. rewrite has_column_mask, H2. reflexivity. }
  unfold ranked, assign. cbn [columns sorted_rows].
  unfold has_column at 1. cbn [columns sorted_rows]. rewrite E.
  reflexivity.
Qed.

(** X9. The ranking block needs the two key columns and nothing else: with
    both it returns a frame that has the columns of the summary frame and
    [risk_rank] (added last when the summary frame has none); without
    [max_deficit_kt] it raises [KeyError] for that column, and with it but
    without [first_deficit_year] it raises [KeyError] for the latter. *)
Theorem rankRisk_key_columns (df : DataFrame) (s : string) :
  (has_column MaxDeficitKt df = true -> has_column FirstDeficitYear df = true ->
   exists out, rankRisk df s = Ok out /\
     columns out = if has_column RiskRank df then columns df else columns df ++ [RiskRank]) /\
  (has_column MaxDeficitKt df = false ->
   rankRisk df s = Raise (KeyError [MaxDeficitKt])) /\
  (has_column MaxDeficitKt df = true -> has_column FirstDeficitYear df = false ->
   rankRisk df s = Raise (KeyError [FirstDeficitYear])).
Proof.
  pose proof (ranking_run [df] 0 df s eq_refl) as R.
  split; [|split].
  - intros H1 H2. exists (ranked df s). split; [now apply rankRisk_ok|].
    now apply columns_ranked.
  - intros H1. rewrite H1 in R. unfold rankRisk. now rewrite (bind_raise _ _ _ _ _ R).
  - intros H1 H2. rewrite H1, H2 in R. unfold rankRisk.
    now rewrite (bind_raise _ _ _ _ _ R).
Qed.

Example rankRisk_without_key_column :
  rankRisk (read_frame [FirstDeficitYear; Gap2030Kt] [ex_lithium NaN NaN]) "STEPS" =
  Raise (KeyError [MaxDeficitKt]).
Proof. reflexivity. Qed.

(** X10. On a summary frame with both key columns the ranking is there,
    and the displayed table is its projection exactly when both gap
    columns are there too; otherwise the projection raises [KeyError] with
    the gap columns that are missing. *)
Theorem rankRisk_display_gap_columns (df : DataFrame) (s : string) :
  has_column MaxDeficitKt df = true ->
  has_column FirstDeficitYear df = true ->
  exists out,
    rankRisk df s = Ok out /\
    rankRisk_display df s =
    match filter (fun c => negb (has_column c df)) [Gap2030Kt; Gap2040Kt] with
    | [] => Ok (map (fun ir => (fst ir, display_of (snd ir))) (rows out))
    | missing => Raise (KeyError missing)
    end.
Proof.
  intros H1 H2. exists (ranked df s). split; [now apply rankRisk_ok|].
  rewrite rankRisk_display_outcome. unfold display_outcome. rewrite H1, H2.
  cbn [filter]. rewrite !has_column_ranked, H1, H2. cbn [column_eqb].
  rewrite !orb_false_r, !orb_true_r. cbn [negb].
  destruct (has_column Gap2030Kt df), (has_column Gap2040Kt df); reflexivity.
Qed.

Lemma rankRisk_display_gap_columns_witness :
  exists out,
    rankRisk (read_frame [FirstDeficitYear; MaxDeficitKt; Gap2040Kt] [ex_lithium NaN NaN])
             "STEPS" = Ok out /\
    rankRisk_display (read_frame [FirstDeficitYear; MaxDeficitKt; Gap2040Kt]
                                 [ex_lithium NaN NaN]) "STEPS" =
    Raise (KeyError [Gap2030Kt]).
Proof.
  apply (rankRisk_display_gap_columns
           (read_frame [FirstDeficitYear; MaxDeficitKt; Gap2040Kt] [ex_lithium NaN NaN])
           "STEPS"); reflexivity.
Defined.

Lemma display_outcome_gap (df : DataFrame) (s : string) :
  display_outcome df s =
  if has_column MaxDeficitKt df then
    if has_column FirstDeficitYear df then
      match filter (fun c => negb (has_column c df)) [Gap2030Kt; Gap2040Kt] with
      | [] => Ok (ranked df s,
                  map (fun ir => (fst ir, display_of (snd ir))) (rows (ranked df s)))
      | missing => Raise (KeyError missing)
      end
    else Raise (KeyError [FirstDeficitYear])
  else Raise (KeyError [MaxDeficitKt]).
Proof.
  unfold display_outcome.
  destruct (has_column MaxDeficitKt df) eqn:H1; [|reflexivity].
  destruct (has_column FirstDeficitYear df) eqn:H2; [|reflexivity].
  cbn [filter]. rewrite !has_column_ranked, H1, H2. cbn [column_eqb].
  rewrite !orb_false_r, !orb_true_r. cbn [negb].
  destruct (has_column Gap2030Kt df), (has_column Gap2040Kt df); reflexivity.
Qed.

(** How the statements after the selection of a mineral can end.  They
    hand over the outputs exactly when the base mineral compiles as a
    pattern and the summary frame has the two key columns and the two gap
    columns; otherwise they raise [re.error], or [KeyError] with columns
    the summary frame lacks. *)
Theorem run_app_outcomes (re_rest : string -> option (string -> bool))
    (df : list SupplyDemandRecord) (summary : DataFrame) (tech_df : list TechDemandRecord)
    (sel_mineral : string) (sel_scenario : list string) (rank_scenario : string) :
  ((exists o, run_app re_rest df summary tech_df sel_mineral sel_scenario rank_scenario = Ok o)
   <->
   re_compile re_rest (base_mineral sel_mineral) <> None /\
   has_column MaxDeficitKt summary = true /\ has_column FirstDeficitYear summary = true /\
   has_column Gap2030Kt summary = true /\ has_column Gap2040Kt summary = true) /\
  (forall e,
     run_app re_rest df summary tech_df sel_mineral sel_scenario rank_scenario = Raise e ->
     (e = ReError /\ re_compile re_rest (base_mineral sel_mineral) = None) \/
     exists missing,
       e = KeyError missing /\ missing <> [] /\
       forall c, In c missing -> has_column c summary = false).
Proof.
  rewrite run_app_outcome, display_outcome_gap. unfold tech_filtered.
  destruct (re_compile re_rest (base_mineral sel_mineral)) as [found|].
  - destruct (has_column MaxDeficitKt summary) eqn:H1.
    + destruct (has_column FirstDeficitYear summary) eqn:H2.
      * cbn [filter].
        destruct (has_column Gap2030Kt summary) eqn:H3;
          destruct (has_column Gap2040Kt summary) eqn:H4; cbn [negb]; split.
        -- split; [intros _; repeat split; discriminate|intros _; eexists; reflexivity].
        -- intros e [=].
        -- split; [intros [o [=]]|intros (_ & _ & _ & _ & [=])].
        -- intros e [= <-]. right. eexists. split; [reflexivity|]. split; [discriminate|].
           intros c [<-|[]]. exact H4.
        -- split; [intros [o [=]]|intros (_ & _ & _ & [=] & _)].
        -- intros e [= <-]. right. eexists. split; [reflexivity|]. split; [discriminate|].
           intros c [<-|[]]. exact H3.
        -- split; [intros [o [=]]|intros (_ & _ & _ & [=] & _)].
        -- intros e [= <-]. right. eexists. split; [reflexivity|]. split; [discriminate|].
           intros c [<-|[<-|[]]]; assumption.
      * split.
        -- split; [intros [o [=]]|intros (_ & _ & [=] & _)].
        -- intros e [= <-]. right. eexists. split; [reflexivity|]. split; [discriminate|].
           intros c [<-|[]]. exact H2.
    + split.
      * split; [intros [o [=]]|intros (_ & [=] & _)].
      * intros e [= <-]. right. eexists. split; [reflexivity|]. split; [discriminate|].
        intros c [<-|[]]. exact H1.
  - split.
    + split; [intros [o [=]]|intros (N & _); now elim N].
    + intros e [= <-]. now left.
Qed.

(** ** KPIs of the selection *)

Lemma summary_mask_selected (sel_mineral : string) (sel_scenario : list string)
    (ir : nat * Row) :
  summary_mask sel_mineral sel_scenario (snd ir) = true <->
  selected_row sel_mineral sel_scenario ir.
Proof.
  unfold summary_mask, selected_row. now rewrite andb_true_iff, String.eqb_eq, isin_In.
Qed.

Lemma In_summary_filtered (summary : DataFrame) (sel_mineral : string)
    (sel_scenario : list string) (ir : nat * Row) :
  In ir (rows (summary_filtered summary sel_mineral sel_scenario)) <->
  In ir (rows summary) /\ selected_row sel_mineral sel_scenario ir.
Proof.
  unfold summary_filtered, mask_rows. cbn [rows].
  now rewrite filter_In, summary_mask_selected.
Qed.

Lemma In_column_values (c : column) (df : DataFrame) (v : cell) :
  In v (column_values c df) <-> exists ir, In ir (rows df) /\ field c (snd ir) = v.
Proof.
  unfold column_values. rewrite in_map_iff. split; intros (ir & H1 & H2); eauto.
Qed.

Lemma kpi_of_computeKPIs (c : column) (sf : DataFrame) :
  In c all_columns -> kpi_of c (computeKPIs sf) = safe_min (get sf c).
Proof.
  intros [<-|[<-|[<-|[<-|[]]]]]; reflexivity.
Qed.

(** The KPI of a column the summary frame has, in terms of the selected
    rows. *)
Lemma kpi_of_selection (summary : DataFrame) (sel_mineral : string)
    (sel_scenario : list string) (c : column) :
  In c all_columns ->
  has_column c summary = true ->
  (kpi_of c (computeKPIs (summary_filtered summary sel_mineral sel_scenario)) = None <->
   forall ir, In ir (rows summary) -> selected_row sel_mineral sel_scenario ir ->
              field c (snd ir) = NaN) /\
  (forall v,
     kpi_of c (computeKPIs (summary_filtered summary sel_mineral sel_scenario)) = Some v ->
     exists q, v = Num q /\
       (exists ir, In ir (rows summary) /\ selected_row sel_mineral sel_scenario ir /\
                   field c (snd ir) = Num q) /\
       (forall ir q', In ir (rows summary) -> selected_row sel_mineral sel_scenario ir ->
                      field c (snd ir) = Num q' -> (q <= q')%Q)).
Proof.
  intros Hc Hcol. rewrite (kpi_of_computeKPIs _ _ Hc).
  set (sf := summary_filtered summary sel_mineral sel_scenario).
  assert (Hsf : has_column c sf = true).
  { unfold sf, summary_filtered. now rewrite has_column_mask. }
  destruct (safe_min_get_rule c sf) as [Hnone Hsome].
  destruct (kpi_rule_covers c sf) as [Hno|[_ [q Hq]]].
  - rewrite (Hnone Hno).
    assert (A : forall v, In v (column_values c sf) -> v = NaN).
    { destruct Hno as [H|[H|H]].
      - unfold column_values. rewrite H. intros v [].
      - congruence.
      - now apply Forall_forall. }
    split; [|intros v [=]].
    split; [|reflexivity]. intros _ ir Hin Hsel.
    apply A, In_column_values. exists ir. split; [|reflexivity].
    apply In_summary_filtered. auto.
  - destruct (Hsome q Hsf Hq) as (m & -> & Hm & Hle).
    split.
    + split; [discriminate|]. intros A. exfalso.
      apply In_column_values in Hq. destruct Hq as (ir & Hin & E).
      apply In_summary_filtered in Hin. destruct Hin as [Hin Hsel].
      rewrite (A ir Hin Hsel) in E. discriminate.
    + intros v [= <-]. exists m. split; [reflexivity|]. split.
      * apply In_column_values in Hm. destruct Hm as (ir & Hin & E).
        apply In_summary_filtered in Hin. destruct Hin as [Hin Hsel]. eauto.
      * intros ir q' Hin Hsel E. apply Hle, In_column_values.
        exists ir. split; [|exact E]. apply In_summary_filtered. auto.
Qed.

(** X12. Each KPI, for a column the summary frame has, is the least value
    of that column that is reported in a summary row of the selected
    mineral and the selected scenarios; it has no value exactly when no
    such row reports one. *)
Theorem kpi_least_reported_of_selection (summary : DataFrame) (sel_mineral : string)
    (sel_scenario : list string) (c : column) :
  In c all_columns ->
  has_column c summary = true ->
  (kpi_of c (computeKPIs (summary_filtered summary sel_mineral sel_scenario)) = None <->
   forall ir, In ir (rows summary) -> selected_row sel_mineral sel_scenario ir ->
              field c (snd ir) = NaN) /\
  (forall v,
     kpi_of c (computeKPIs (summary_filtered summary sel_mineral sel_scenario)) = Some v ->
     exists q, v = Num q /\
       (exists ir, In ir (rows summary) /\ selected_row sel_mineral sel_scenario ir /\
                   field c (snd ir) = Num q) /\
       (forall ir q', In ir (rows summary) -> selected_row sel_mineral sel_scenario ir ->
                      field c (snd ir) = Num q' -> (q <= q')%Q)).
Proof.
  apply kpi_of_selection.
Qed.

Lemma kpi_least_reported_of_selection_witness :
  (kpi_of Gap2040Kt
     (computeKPIs (summary_filtered
                     (read_frame all_columns
                        [ex_cobalt NaN (Num (-4)); ex_lithium NaN (Num (-9));
                         mkRow "Cobalt" "APS" (Num 2028) NaN NaN (Num (-6)) NaN])
                     "Cobalt" ["STEPS"; "APS"])) = None <->
   forall ir,
     In ir (rows (read_frame all_columns
                    [ex_cobalt NaN (Num (-4)); ex_lithium NaN (Num (-9));
                     mkRow "Cobalt" "APS" (Num 2028) NaN NaN (Num (-6)) NaN])) ->
     selected_row "Cobalt" ["STEPS"; "APS"] ir -> field Gap2040Kt (snd ir) = NaN) /\
  (forall v,
     kpi_of Gap2040Kt
       (computeKPIs (summary_filtered
                       (read_frame all_columns
                          [ex_cobalt NaN (Num (-4)); ex_lithium NaN (Num (-9));
                           mkRow "Cobalt" "APS" (Num 2028) NaN NaN (Num (-6)) NaN])
                       "Cobalt" ["STEPS"; "APS"])) = Some v ->
     exists q, v = Num q /\
       (exists ir,
          In ir (rows (read_frame all_columns
                         [ex_cobalt NaN (Num (-4)); ex_lithium NaN (Num (-9));
                          mkRow "Cobalt" "APS" (Num 2028) NaN NaN (Num (-6)) NaN])) /\
          selected_row "Cobalt" ["STEPS"; "APS"] ir /\ field Gap2040Kt (snd ir) = Num q) /\
       (forall ir q',
          In ir (rows (read_frame all_columns
                         [ex_cobalt NaN (Num (-4)); ex_lithium NaN (Num (-9));
                          mkRow "Cobalt" "APS" (Num 2028) NaN NaN (Num (-6)) NaN])) ->
          selected_row "Cobalt" ["STEPS"; "APS"] ir ->
          field Gap2040Kt (snd ir) = Num q' -> (q <= q')%Q)).
Proof.
  apply (kpi_least_reported_of_selection
           (read_frame all_columns
              [ex_cobalt NaN (Num (-4)); ex_lithium NaN (Num (-9));
               mkRow "Cobalt" "APS" (Num 2028) NaN NaN (Num (-6)) NaN])
           "Cobalt" ["STEPS"; "APS"] Gap2040Kt).
  - simpl. auto.
  - reflexivity.
Defined.

(** X13. Selecting more scenarios can only lower a KPI: when the scenarios
    of one selection are among those of another and the KPI has a value
    under the first, it has a value under the second, and that value is
    not larger. *)
Theorem kpi_antitone_in_scenarios (summary : DataFrame) (sel_mineral : string)
    (sel_scenario more_scenarios : list string) (c : column) (a : Q) :
  incl sel_scenario more_scenarios ->
  kpi_of c (computeKPIs (summary_filtered summary sel_mineral sel_scenario)) = Some (Num a) ->
  exists b,
    kpi_of c (computeKPIs (summary_filtered summary sel_mineral more_scenarios)) = Some (Num b) /\
    (b <= a)%Q.
Proof.
  intros Hincl Ha.
  assert (Hc : In c all_columns).
  { destruct c; cbn; auto. discriminate Ha. }
  assert (Hcol : has_column c summary = true).
  { rewrite (kpi_of_computeKPIs _ _ Hc) in Ha. unfold get, summary_filtered in Ha.
    rewrite has_column_mask in Ha.
    destruct (has_column c summary); [reflexivity|discriminate Ha]. }
  destruct (kpi_of_selection summary sel_mineral sel_scenario c Hc Hcol) as [_ H1].
  destruct (kpi_of_selection summary sel_mineral more_scenarios c Hc Hcol) as [N2 H2].
  destruct (H1 _ Ha) as (q & [= <-] & (ir & Hin & [Hm Hs] & E) & _).
  assert (Hsel : selected_row sel_mineral more_scenarios ir).
  { split; [exact Hm|]. now apply Hincl. }
  destruct (kpi_of c (computeKPIs (summary_filtered summary sel_mineral more_scenarios)))
    as [v|] eqn:K.
  - destruct (H2 v eq_refl) as (b & -> & _ & Hle).
    exists b. split; [reflexivity|]. now apply (Hle ir a).
  - exfalso. rewrite (proj1 N2 eq_refl ir Hin Hsel) in E. discriminate.
Qed.

Lemma kpi_antitone_in_scenarios_witness :
  exists b,
    kpi_of FirstDeficitYear
      (computeKPIs (summary_filtered
                      (read_frame all_columns
                         [ex_cobalt NaN NaN;
                          mkRow "Cobalt" "APS" (Num 2028) NaN NaN NaN NaN])
                      "Cobalt" ["STEPS"; "APS"])) = Some (Num b) /\
    (b <= 2031)%Q.
Proof.
  apply (kpi_antitone_in_scenarios
           (read_frame all_columns
              [ex_cobalt NaN NaN; mkRow "Cobalt" "APS" (Num 2028) NaN NaN NaN NaN])
           "Cobalt" ["STEPS"] ["STEPS"; "APS"] FirstDeficitYear 2031).
  - intros x [<-|[]]. simpl. auto.
  - reflexivity.
Defined.

(** X14. With no scenario selected the series table and the filtered
    summary have no rows, all four KPIs have no value, and the technology
    filter, when it returns, returns no row. *)
Theorem nothing_selected (re_rest : string -> option (string -> bool))
    (df : list SupplyDemandRecord) (summary : DataFrame) (tech_df : list TechDemandRecord)
    (sel_mineral : string) :
  filtered df sel_mineral [] = [] /\
  rows (summary_filtered summary sel_mineral []) = [] /\
  computeKPIs (summary_filtered summary sel_mineral []) = mkKPIs None None None None /\
  (forall out, tech_filtered re_rest tech_df sel_mineral [] = Ok out -> out = []).
Proof.
  assert (F : forall (A : Type) (p : A -> bool) (l : list A),
             (forall x, p x = false) -> filter p l = []).
  { intros A p l H. induction l as [|x l IH]; cbn [filter]; [reflexivity|]. now rewrite H. }
  assert (R : rows (summary_filtered summary sel_mineral []) = []).
  { unfold summary_filtered, mask_rows. cbn [rows]. apply F. intros ir.
    unfold summary_mask. cbn [isin existsb]. apply andb_false_r. }
  split; [|split; [exact R|split]].
  - unfold filtered. apply F. intros r. cbn [isin existsb]. apply andb_false_r.
  - unfold computeKPIs, get, column_values. rewrite R. cbn [map].
    repeat match goal with |- context [if ?b then _ else _] => destruct b end; reflexivity.
  - unfold tech_filtered. intros out.
    destruct (re_compile re_rest (base_mineral sel_mineral)) as [found|]; [|discriminate].
    intros [= <-]. apply F. intros r. cbn [isin existsb]. apply andb_false_r.
Qed.

(** ** The ranking as a function of the rows *)

Lemma map_insert {A B : Type} (f : A -> B) (leb : B -> B -> bool) (x : A) (l : list A) :
  map f (insert (fun a b => leb (f a) (f b)) x l) = insert leb (f x) (map f l).
Proof.
  induction l as [|y l IH]; cbn [insert map]; [reflexivity|].
  destruct (leb (f x) (f y)); cbn [map]; [reflexivity|]. now rewrite IH.
Qed.

Lemma map_stable_sort {A B : Type} (f : A -> B) (leb : B -> B -> bool) (l : list A) :
  map f (stable_sort (fun a b => leb (f a) (f b)) l) = stable_sort leb (map f l).
Proof.
  induction l as [|x l IH]; cbn [stable_sort map]; [reflexivity|].
  now rewrite map_insert, IH.
Qed.

Lemma rows_ranked (df : DataFrame) (s : string) :
  rows (ranked df s) =
  map (fun irv => (fst (fst irv), set_field RiskRank (snd irv) (snd (fst irv))))
      (combine (sorted_selection df s) (range1 (List.length (sorted_selection df s)))).
Proof.
  unfold ranked, assign, sorted_rows. cbn [rows].
  rewrite rows_substituted. reflexivity.
Qed.

Lemma map_snd_sorted_selection (df : DataFrame) (s : string) :
  map snd (sorted_selection df s) =
  stable_sort (keys_leb [MaxDeficitKt; FirstDeficitYear])
    (map substitute (filter (fun r => String.eqb (scenario r) s) (map snd (rows df)))).
Proof.
  unfold sorted_selection, by_key.
  rewrite (map_stable_sort snd (keys_leb [MaxDeficitKt; FirstDeficitYear])).
  f_equal. rewrite map_map. cbn [substitute_row snd].
  induction (rows df) as [|ir l IH]; [reflexivity|].
  cbn [filter map]. unfold in_scenario at 1.
  destruct (String.eqb (scenario (snd ir)) s); cbn [map]; now rewrite IH.
Qed.

(** X15. The rows of the ranking, index labels left aside, are a function
    of the rows of the summary table alone: those of the ranking scenario,
    with their substitutes, in the order of a stable sort on the two keys,
    numbered from 1.  Rows of other scenarios and the index play no part. *)
Theorem rankRisk_rows (df : DataFrame) (s : string) :
  has_column MaxDeficitKt df = true ->
  has_column FirstDeficitYear df = true ->
  exists out,
    rankRisk df s = Ok out /\
    map snd (rows out) = rank_rows (map snd (rows df)) s.
Proof.
  intros H1 H2. exists (ranked df s). split; [now apply rankRisk_ok|].
  rewrite rows_ranked. unfold rank_rows.
  rewrite <- map_snd_sorted_selection, length_map.
  generalize (range1 (List.length (sorted_selection df s))).
  induction (sorted_selection df s) as [|ir l IH]; intros vals; [reflexivity|].
  destruct vals as [|v vals]; [reflexivity|].
  cbn [combine map fst snd]. now rewrite IH.
Qed.

Lemma rankRisk_rows_witness :
  exists out,
    rankRisk (read_frame all_columns
                [ex_cobalt NaN NaN; mkRow "Nickel" "APS" NaN NaN NaN NaN NaN;
                 ex_lithium NaN NaN]) "STEPS" = Ok out /\
    map snd (rows out) =
    rank_rows (map snd (rows (read_frame all_columns
                                [ex_cobalt NaN NaN; mkRow "Nickel" "APS" NaN NaN NaN NaN NaN;
                                 ex_lithium NaN NaN]))) "STEPS".
Proof.
  apply (rankRisk_rows
           (read_frame all_columns
              [ex_cobalt NaN NaN; mkRow "Nickel" "APS" NaN NaN NaN NaN NaN;
               ex_lithium NaN NaN]) "STEPS"); reflexivity.
Defined.

(** ** Ranking a ranked frame *)

Lemma frame_eq (a b : DataFrame) : columns a = columns b -> rows a = rows b -> a = b.
Proof.
  destruct a, b. cbn [columns rows]. now intros -> ->.
Qed.

Lemma filter_all {A : Type} (p : A -> bool) (l : list A) :
  (forall x, In x l -> p x = true) -> filter p l = l.
Proof.
  induction l as [|x l IH]; intros H; cbn [filter]; [reflexivity|].
  rewrite (H x (or_introl eq_refl)), IH; [reflexivity|].
  intros y Hy. apply H. now right.
Qed.

Lemma map_fixed {A : Type} (f : A -> A) (l : list A) :
  (forall x, In x l -> f x = x) -> map f l = l.
Proof.
  intros H. rewrite (map_ext_in f (fun x => x) l H). apply map_id.
Qed.

Lemma substitute_fixed (r : Row) (m y : Q) :
  max_deficit_kt r = Num m -> first_deficit_year r = Num y -> substitute r = r.
Proof.
  destruct r. cbn. now intros -> ->.
Qed.

(** What every row of the ranked frame looks like. *)
Lemma ranked_row_shape (df : DataFrame) (s : string) (x : nat * Row) :
  In x (rows (ranked df s)) ->
  in_scenario s x = true /\ substitute_row x = x.
Proof.
  intros H. apply In_ranked in H. destruct H as (k & ir & Hk & ->).
  apply nth_error_In in Hk.
  apply (Permutation_in _ (sorted_selection_perm df s)), in_map_iff in Hk.
  destruct Hk as (y & <- & Hy). apply filter_In in Hy. destruct Hy as [_ Hy].
  unfold in_scenario in *. unfold with_rank, substitute_row. cbn [fst snd].
  destruct y as [i r]. cbn [fst snd] in *. split.
  - destruct r. exact Hy.
  - f_equal.
    destruct (fill_num 0 (max_deficit_kt r)) as [m Hm].
    destruct (fill_num 9999 (first_deficit_year r)) as [y Hyr].
    apply (substitute_fixed _ m y).
    + destruct r. cbn in *. exact Hm.
    + destruct r. cbn in *. exact Hyr.
Qed.

Lemma ranked_rows_ascending (df : DataFrame) (s : string) :
  StronglySorted (fun a b => by_key a b = true) (rows (ranked df s)).
Proof.
  rewrite rows_ranked.
  pose proof (stable_sort_ascending by_key by_key_total by_key_trans
                (map substitute_row (filter (in_scenario s) (rows df)))) as S.
  fold (sorted_selection df s) in S.
  generalize (range1 (List.length (sorted_selection df s))).
  induction S as [|a l Hl IH Ha]; intros vals; [constructor|].
  destruct vals as [|v vals]; [constructor|].
  cbn [combine map]. constructor; [apply IH|].
  apply Forall_forall. intros x Hx. apply in_map_iff in Hx.
  destruct Hx as ([b w] & <- & Hb). apply in_combine_l in Hb.
  rewrite Forall_forall in Ha. specialize (Ha b Hb).
  unfold by_key in *. cbn [fst snd].
  destruct (snd a), (snd b). exact Ha.
Qed.

Lemma renumber_fixed (l : list (nat * Row)) (vals : list cell) :
  List.length vals = List.length l ->
  let ranked_rows :=
    map (fun irv : nat * Row * cell =>
           (fst (fst irv), set_field RiskRank (snd irv) (snd (fst irv))))
        (combine l vals) in
  List.length ranked_rows = List.length l /\
  map (fun irv : nat * Row * cell =>
         (fst (fst irv), set_field RiskRank (snd irv) (snd (fst irv))))
      (combine ranked_rows vals) = ranked_rows.
Proof.
  revert vals. induction l as [|[i r] l IH]; intros [|v vals] H; try discriminate H.
  - split; reflexivity.
  - injection H as H. destruct (IH vals H) as [L E]. cbn zeta in *.
    cbn [combine map List.length fst snd]. split; [now rewrite L|].
    rewrite E. reflexivity.
Qed.

Lemma ranked_ranked (df : DataFrame) (s : string) :
  has_column MaxDeficitKt df = true ->
  has_column FirstDeficitYear df = true ->
  ranked (ranked df s) s = ranked df s.
Proof.
  intros H1 H2.
  assert (K1 : has_column MaxDeficitKt (ranked df s) = true).
  { rewrite has_column_ranked, H1. reflexivity. }
  assert (K2 : has_column FirstDeficitYear (ranked df s) = true).
  { rewrite has_column_ranked, H2. reflexivity. }
  apply frame_eq.
  - rewrite (columns_ranked _ _ K1 K2), has_column_ranked. cbn [column_eqb].
    now rewrite orb_true_r.
  - rewrite (rows_ranked (ranked df s)).
    assert (E : sorted_selection (ranked df s) s = rows (ranked df s)).
    { unfold sorted_selection.
      rewrite filter_all by (intros x Hx; now apply (ranked_row_shape df s)).
      rewrite map_fixed by (intros x Hx; now apply (ranked_row_shape df s)).
      apply stable_sort_fixed, ranked_rows_ascending. }
    rewrite E. rewrite (rows_ranked df s) at 3.
    destruct (renumber_fixed (sorted_selection df s)
                (range1 (List.length (sorted_selection df s))) (length_range1 _)) as [L R].
    cbn zeta in L, R. rewrite <- rows_ranked in L, R.
    rewrite L. rewrite <- rows_ranked. exact R.
Qed.

(** X16. Ranking is idempotent: on a summary frame with both key columns,
    the ranking block applied to its own result, for the same scenario,
    returns that result again, rows, ranks, index and columns alike. *)
Theorem rankRisk_idempotent (df : DataFrame) (s : string) :
  has_column MaxDeficitKt df = true ->
  has_column FirstDeficitYear df = true ->
  exists out, rankRisk df s = Ok out /\ rankRisk out s = Ok out.
Proof.
  intros H1 H2. exists (ranked df s). split; [now apply rankRisk_ok|].
  rewrite rankRisk_ok.
  - now rewrite ranked_ranked.
  - rewrite has_column_ranked, H1. reflexivity.
  - rewrite has_column_ranked, H2. reflexivity.
Qed.

Lemma rankRisk_idempotent_witness :
  exists out,
    rankRisk (read_frame all_columns [ex_cobalt NaN NaN; ex_lithium NaN NaN]) "STEPS" = Ok out /\
    rankRisk out "STEPS" = Ok out.
Proof.
  apply (rankRisk_idempotent
           (read_frame all_columns [ex_cobalt NaN NaN; ex_lithium NaN NaN]) "STEPS");
    reflexivity.
Defined.

(** ** KPI indicators *)

Lemma safe_min_number (series : option (list cell)) (v : cell) :
  safe_min series = Some v -> exists q, v = Num q.
Proof.
  unfold safe_min, series_min. destruct series as [s|]; [|discriminate].
  destruct (dropna s) as [|x xs]; cbn [empty negb]; [discriminate|].
  intros [= <-]. eauto.
Qed.

Lemma kpi_number (c : column) (sf : DataFrame) (v : cell) :
  kpi_of c (computeKPIs sf) = Some v -> exists q, v = Num q.
Proof.
  destruct c; cbn [kpi_of computeKPIs kpi_first_deficit_year kpi_max_deficit
                   kpi_gap_2030 kpi_gap_2040];
    try apply safe_min_number. discriminate.
Qed.

Lemma float_min2_cases (a b : float64) : float_min2 a b = a \/ float_min2 a b = b.
Proof.
  unfold float_min2. destruct (float_leb a b); auto.
Qed.

Lemma float_leb_refl (a : float64) : float_isna a = false -> float_leb a a = true.
Proof.
  destruct a; cbn; try reflexivity; try discriminate.
  intros _. apply Qle_bool_iff, Qle_refl.
Qed.

Lemma float_leb_total (a b : float64) :
  float_isna a = false -> float_isna b = false ->
  float_leb a b = true \/ float_leb b a = true.
Proof.
  destruct a as [x| | |], b as [y| | |]; cbn; auto; try discriminate.
  intros _ _. destruct (Qlt_le_dec y x) as [H|H].
  - right. apply Qle_bool_iff. now apply Qlt_le_weak.
  - left. now apply Qle_bool_iff.
Qed.

Lemma float_leb_trans (a b c : float64) :
  float_leb a b = true -> float_leb b c = true -> float_leb a c = true.
Proof.
  destruct a as [x| | |], b as [y| | |], c as [z| | |]; cbn; auto; try discriminate.
  rewrite !Qle_bool_iff. apply Qle_trans.
Qed.

Lemma float_min2_le_l (a b : float64) :
  float_isna a = false -> float_isna b = false -> float_leb (float_min2 a b) a = true.
Proof.
  intros Ha Hb. unfold float_min2. destruct (float_leb a b) eqn:E.
  - now apply float_leb_refl.
  - destruct (float_leb_total a b Ha Hb); congruence.
Qed.

Lemma float_min2_le_r (a b : float64) :
  float_isna b = false -> float_leb (float_min2 a b) b = true.
Proof.
  intros Hb. unfold float_min2. destruct (float_leb a b) eqn:E; [exact E|].
  now apply float_leb_refl.
Qed.

Lemma float_min2_number (a b : float64) :
  float_isna a = false -> float_isna b = false -> float_isna (float_min2 a b) = false.
Proof.
  intros Ha Hb. destruct (float_min2_cases a b) as [-> | ->]; assumption.
Qed.

(** Folding [float_min2] over values that are not NaN picks one of them,
    below all of them. *)
Lemma fold_float_min (xs : list float64) (x : float64) :
  float_isna x = false ->
  Forall (fun y => float_isna y = false) xs ->
  In (fold_left float_min2 xs x) (x :: xs) /\
  float_isna (fold_left float_min2 xs x) = false /\
  forall y, In y (x :: xs) -> float_leb (fold_left float_min2 xs x) y = true.
Proof.
  revert x. induction xs as [|z xs IH]; intros x Hx Hxs; cbn [fold_left].
  - split; [now left|]. split; [exact Hx|].
    intros y [<-|[]]. now apply float_leb_refl.
  - inversion Hxs as [|? ? Hz Hrest]; subst.
    destruct (IH (float_min2 x z) (float_min2_number x z Hx Hz) Hrest) as (Hin & Hna & Hle).
    split; [|split; [exact Hna|]].
    + destruct Hin as [E|Hin].
      * rewrite <- E. destruct (float_min2_cases x z) as [-> | ->];
          [now left|right; now left].
      * right. now right.
    + intros y [<-|[<-|Hy]].
      * eapply float_leb_trans; [apply Hle; now left|now apply float_min2_le_l].
      * eapply float_leb_trans; [apply Hle; now left|now apply float_min2_le_r].
      * apply Hle. now right.
Qed.

Lemma In_float_dropna (s : list float64) (x : float64) :
  In x (float_dropna s) <-> In x s /\ float_isna x = false.
Proof.
  unfold float_dropna. now rewrite filter_In, negb_true_iff.
Qed.

(** The value [safe_min] returns is a value of the column, is not NaN, and
    is below every value of the column that is not NaN. *)
Lemma float_safe_min_least (series : option (list float64)) (v : float64) :
  float_safe_min series = Some v ->
  float_isna v = false /\
  exists s, series = Some s /\ In v s /\
    forall y, In y s -> float_isna y = false -> float_leb v y = true.
Proof.
  unfold float_safe_min, float_series_min. destruct series as [s|]; [|discriminate].
  destruct (float_dropna s) as [|x xs] eqn:E; cbn [empty negb]; [discriminate|].
  intros [= <-].
  assert (Hall : forall y, In y (x :: xs) -> In y s /\ float_isna y = false).
  { intros y Hy. apply In_float_dropna. now rewrite E. }
  destruct (fold_float_min xs x) as (Hin & Hna & Hle).
  - apply Hall. now left.
  - apply Forall_forall. intros y Hy. apply Hall. now right.
  - split; [exact Hna|]. exists s. split; [reflexivity|]. split.
    + now apply Hall.
    + intros y Hy Hn. apply Hle. rewrite <- E. now apply In_float_dropna.
Qed.

Lemma float_dropna_cells (s : list cell) :
  float_dropna (map float_of_cell s) = map Finite (dropna s).
Proof.
  induction s as [|[|q] s IH]; cbn; [reflexivity|exact IH|].
  unfold float_dropna in IH. now rewrite IH.
Qed.

Lemma fold_float_min_cells (xs : list Q) (x : Q) :
  fold_left float_min2 (map Finite xs) (Finite x) = Finite (fold_left qmin xs x).
Proof.
  revert x. induction xs as [|y xs IH]; intros x; cbn [map fold_left]; [reflexivity|].
  rewrite <- IH. f_equal. unfold float_min2, qmin. cbn [float_leb].
  now destruct (Qle_bool x y).
Qed.

(** On a column of numbers and missing values the two models of
    [safe_min] agree. *)
Lemma float_safe_min_cells (series : option (list cell)) :
  float_safe_min (option_map (map float_of_cell) series) =
  option_map float_of_cell (safe_min series).
Proof.
  destruct series as [s|]; [|reflexivity].
  cbn [option_map float_safe_min safe_min]. unfold float_series_min, series_min.
  rewrite float_dropna_cells.
  destruct (dropna s) as [|x xs]; cbn [map empty negb option_map float_of_cell];
    [reflexivity|].
  now rewrite fold_float_min_cells.
Qed.

Lemma is_true_zero (q : Q) : is_true (Finite q) = false <-> (q == 0)%Q.
Proof.
  cbn [is_true]. rewrite negb_false_iff. apply Qeq_bool_iff.
Qed.

(** [int] truncates towards zero. *)
Lemma int_truncates (q : Q) :
  exists z, int (Finite q) = Ok z /\
    (forall y, (q == inject_Z y)%Q -> z = y) /\
    ((0 <= q)%Q -> (inject_Z z <= q)%Q /\ (q < inject_Z z + 1)%Q) /\
    ((q <= 0)%Q -> (inject_Z z - 1 < q)%Q /\ (q <= inject_Z z)%Q).
Proof.
  destruct q as [n d]. exists (Z.quot n (Zpos d)). split; [reflexivity|].
  assert (HD : (0 < Zpos d)%Z) by reflexivity.
  unfold Qeq, Qle, Qlt. cbn [Qnum Qden inject_Z Qplus Qminus Qopp].
  split; [|split].
  - intros y E. rewrite Z.mul_1_r in E. subst n. apply Z.quot_mul. lia.
  - intros H. rewrite Z.mul_1_r in H.
    pose proof (Z.mul_quot_le n (Zpos d) H ltac:(lia)).
    pose proof (Z.mul_succ_quot_gt n (Zpos d) H HD).
    split; nia.
  - intros H. rewrite Z.mul_1_r in H.
    pose proof (Z.mul_quot_ge n (Zpos d) H ltac:(lia)).
    pose proof (Z.mul_pred_quot_lt n (Zpos d) H HD).
    split; nia.
Qed.

(** X17. The first metric, on the value [safe_min] returns for a column
    that may hold infinities and missing values.  That value is never NaN,
    so [int] never raises [ValueError].  The metric shows "No deficit" when
    there is no value and also when the value is 0; it shows a finite value
    that is not 0 truncated towards zero, which for a whole number is that
    number; and it raises [OverflowError] when the least reported value is
    an infinity, and only then.  On a summary frame of numbers and missing
    values it therefore never fails. *)
Theorem first_deficit_year_metric_shown (series : option (list float64)) :
  float_safe_min series <> Some NotANumber /\
  (float_safe_min series = None ->
   first_deficit_year_metric (float_safe_min series) = Ok (TextValue "No deficit")) /\
  (forall q, float_safe_min series = Some (Finite q) ->
     ((q == 0)%Q ->
      first_deficit_year_metric (float_safe_min series) = Ok (TextValue "No deficit")) /\
     (~ (q == 0)%Q ->
      exists z,
        first_deficit_year_metric (float_safe_min series) = Ok (IntValue z) /\
        (forall y, (q == inject_Z y)%Q -> z = y) /\
        ((0 <= q)%Q -> (inject_Z z <= q)%Q /\ (q < inject_Z z + 1)%Q) /\
        ((q <= 0)%Q -> (inject_Z z - 1 < q)%Q /\ (q <= inject_Z z)%Q))) /\
  (forall e, first_deficit_year_metric (float_safe_min series) = Raise e <->
             e = OverflowError /\
             (float_safe_min series = Some PosInf \/ float_safe_min series = Some NegInf)) /\
  (forall sf : DataFrame,
     float_safe_min (option_map (map float_of_cell) (get sf FirstDeficitYear)) =
       option_map float_of_cell (kpi_first_deficit_year (computeKPIs sf)) /\
     exists shown,
       first_deficit_year_metric
         (option_map float_of_cell (kpi_first_deficit_year (computeKPIs sf))) = Ok shown).
Proof.
  assert (N : float_safe_min series <> Some NotANumber).
  { intros K. apply float_safe_min_least in K. destruct K as [K _]. discriminate K. }
  split; [exact N|]. split; [now intros ->|]. split; [|split].
  - intros q ->. cbn [first_deficit_year_metric]. split.
    + intros Z0. apply is_true_zero in Z0. now rewrite Z0.
    + intros NZ. destruct (is_true (Finite q)) eqn:T.
      * destruct (int_truncates q) as (z & -> & Hz). exists z. now split.
      * apply is_true_zero in T. contradiction.
  - intros e. destruct (float_safe_min series) as [[q| | |]|]; cbn.
    + destruct (negb (Qeq_bool q 0)); split; try discriminate;
        intros [_ [H|H]]; discriminate H.
    + split; [intros [= <-]; auto|now intros [-> _]].
    + split; [intros [= <-]; auto|now intros [-> _]].
    + now elim N.
    + split; [discriminate|intros [_ [H|H]]; discriminate H].
  - intros sf. split; [apply (float_safe_min_cells (get sf FirstDeficitYear))|].
    change (kpi_first_deficit_year (computeKPIs sf))
      with (safe_min (get sf FirstDeficitYear)).
    destruct (safe_min (get sf FirstDeficitYear)) as [v|] eqn:K;
      [|eexists; reflexivity].
    destruct (safe_min_number _ _ K) as [q ->].
    cbn [option_map float_of_cell first_deficit_year_metric].
    destruct (is_true (Finite q)); eexists; reflexivity.
Qed.

Example first_deficit_year_metric_example :
  first_deficit_year_metric
    (option_map float_of_cell
       (kpi_first_deficit_year
          (computeKPIs (summary_filtered
                          (read_frame all_columns
                             [ex_cobalt NaN NaN;
                              mkRow "Cobalt" "APS" (Num 2028) NaN NaN NaN NaN])
                          "Cobalt" ["STEPS"; "APS"]))))
  = Ok (IntValue 2028) /\
  first_deficit_year_metric (float_safe_min (Some [Finite 2031; NotANumber; PosInf]))
  = Ok (IntValue 2031) /\
  first_deficit_year_metric (float_safe_min (Some [PosInf; NotANumber]))
  = Raise OverflowError /\
  first_deficit_year_metric (float_safe_min (Some [Finite 2031; NegInf]))
  = Raise OverflowError.
Proof. repeat split. Qed.

Lemma rounded_magnitude_nearest (q : Q) :
  (Qabs q - (1 # 2) <= inject_Z (rounded_magnitude q))%Q /\
  (inject_Z (rounded_magnitude q) <= Qabs q + (1 # 2))%Q /\
  (0 <= rounded_magnitude q)%Z.
Proof.
  destruct q as [n d]. unfold rounded_magnitude, Qle.
  cbn [Qabs Qnum Qden Qminus Qplus Qopp inject_Z].
  set (a := Z.abs n). set (D := Zpos d).
  assert (Ha : (0 <= a)%Z) by apply Z.abs_nonneg.
  assert (HD : (0 < D)%Z) by reflexivity.
  pose proof (Z.div_mod a D ltac:(lia)) as E.
  pose proof (Z.mod_pos_bound a D HD) as B.
  assert (F : (0 <= a / D)%Z) by (apply Z.div_pos; lia).
  set (fl := (a / D)%Z) in *. set (m := (a mod D)%Z) in *.
  change (Z.pos (d * 2)) with (D * 2)%Z.
  destruct (Z.compare_spec (2 * m) D) as [C|C|C];
    [destruct (Z.even fl)|..]; repeat split; nia.
Qed.

(** X18. Each of the other three metrics, on the value [safe_min] returns
    for a column that may hold infinities and missing values.  That value
    is never NaN, so the text "nan" is never shown.  The metric shows "0"
    when there is no value and also when the value is 0; for a finite value
    that is not 0 it shows a minus sign if the value is negative, followed
    by the grouped digits of an integer at most one half away from the
    magnitude of the value; for an infinite value it shows "inf" or
    "-inf". *)
Theorem formatted_metric_shown (series : option (list float64)) :
  float_safe_min series <> Some NotANumber /\
  (float_safe_min series = None -> formatted_metric (float_safe_min series) = "0") /\
  (forall q, float_safe_min series = Some (Finite q) ->
     ((q == 0)%Q -> formatted_metric (float_safe_min series) = "0") /\
     (~ (q == 0)%Q ->
      exists r,
        formatted_metric (float_safe_min series) =
          ((if Qle_bool 0 q then "" else "-") ++ group3 (digits r))%string /\
        (0 <= r)%Z /\
        (Qabs q - (1 # 2) <= inject_Z r)%Q /\ (inject_Z r <= Qabs q + (1 # 2))%Q)) /\
  (float_safe_min series = Some PosInf -> formatted_metric (float_safe_min series) = "inf") /\
  (float_safe_min series = Some NegInf -> formatted_metric (float_safe_min series) = "-inf") /\
  (forall (sf : DataFrame) (c : column),
     In c [MaxDeficitKt; Gap2030Kt; Gap2040Kt] ->
     float_safe_min (option_map (map float_of_cell) (get sf c)) =
     option_map float_of_cell (kpi_of c (computeKPIs sf))).
Proof.
  split; [|split; [|split; [|split; [|split]]]].
  - intros K. apply float_safe_min_least in K. destruct K as [K _]. discriminate K.
  - now intros ->.
  - intros q ->. cbn [formatted_metric]. split.
    + intros Z0. apply is_true_zero in Z0. now rewrite Z0.
    + intros NZ. destruct (is_true (Finite q)) eqn:T.
      * exists (rounded_magnitude q). split; [reflexivity|].
        destruct (rounded_magnitude_nearest q) as (L & U & P). auto.
      * apply is_true_zero in T. contradiction.
  - now intros ->.
  - now intros ->.
  - intros sf c Hc. rewrite float_safe_min_cells. f_equal.
    destruct Hc as [<-|[<-|[<-|[]]]]; reflexivity.
Qed.

Example formatted_metric_example :
  formatted_metric
    (option_map float_of_cell
       (kpi_of Gap2040Kt
          (computeKPIs (read_frame all_columns [ex_cobalt NaN (Num (-12345.5))]))))
  = "-12,346" /\
  formatted_metric (Some (Finite 2.5)) = "2" /\
  formatted_metric (Some (Finite (-0.4))) = "-0" /\
  formatted_metric (Some (Finite 1234567)) = "1,234,567" /\
  formatted_metric (float_safe_min (Some [Finite 3; NegInf; NotANumber])) = "-inf".
Proof. repeat split. Qed.

(** ** The technology panel *)

Lemma filter_nil_iff {A : Type} (p : A -> bool) (l : list A) :
  filter p l = [] <-> forall x, In x l -> p x = false.
Proof.
  induction l as [|x l IH]; cbn [filter In].
  - split; [intros _ x []|reflexivity].
  - destruct (p x) eqn:E.
    + split; [discriminate|]. intros H. rewrite (H x (or_introl eq_refl)) in E. discriminate.
    + rewrite IH. split.
      * intros H y [<-|Hy]; auto.
      * intros H y Hy. apply H. now right.
Qed.

(** X19. For a base mineral without pattern characters, the panel shows
    the note that no technology data is reported exactly when no
    technology row of a selected scenario contains the base mineral,
    ignoring case; otherwise it charts the rows the filter returned, under
    a title that names the base mineral. *)
Theorem technology_drivers_note
    (re_rest : string -> option (string -> bool))
    (tech_df : list TechDemandRecord) (sel_mineral : string) (sel_scenario : list string) :
  all_plain (base_mineral sel_mineral) = true ->
  exists out,
    tech_filtered re_rest tech_df sel_mineral sel_scenario = Ok out /\
    (technology_drivers out (base_mineral sel_mineral) = NotReported <->
     forall r, In r tech_df -> In (t_scenario r) sel_scenario ->
               contains_ci (base_mineral sel_mineral) (t_mineral r) = false) /\
    (technology_drivers out (base_mineral sel_mineral) <> NotReported ->
     technology_drivers out (base_mineral sel_mineral) =
     AreaChart ("Technology Drivers of " ++ base_mineral sel_mineral ++ " Demand") out).
Proof.
  intros H. exists (spec_filterTech tech_df sel_mineral sel_scenario).
  split; [now apply tech_filtered_plain|].
  unfold technology_drivers.
  destruct (spec_filterTech tech_df sel_mineral sel_scenario) as [|x out] eqn:E;
    cbn [empty]; split.
  - split; [|reflexivity]. intros _ r Hr Hs.
    unfold spec_filterTech in E. rewrite filter_nil_iff in E.
    specialize (E r Hr). apply isin_In in Hs. rewrite Hs, andb_true_r in E. exact E.
  - intros N. now elim N.
  - split; [discriminate|]. intros A. exfalso.
    assert (Hx : In x (spec_filterTech tech_df sel_mineral sel_scenario))
      by (rewrite E; now left).
    unfold spec_filterTech in Hx. apply filter_In in Hx. destruct Hx as [Hin Hx].
    apply andb_true_iff in Hx. destruct Hx as [Hc Hs]. apply isin_In in Hs.
    rewrite (A x Hin Hs) in Hc. discriminate.
  - reflexivity.
Qed.

Lemma technology_drivers_note_witness :
  exists out,
    tech_filtered no_re ex_tech "Cobalt" ["STEPS"; "APS"] = Ok out /\
    (technology_drivers out (base_mineral "Cobalt") = NotReported <->
     forall r, In r ex_tech -> In (t_scenario r) ["STEPS"; "APS"] ->
               contains_ci (base_mineral "Cobalt") (t_mineral r) = false) /\
    (technology_drivers out (base_mineral "Cobalt") <> NotReported ->
     technology_drivers out (base_mineral "Cobalt") =
     AreaChart ("Technology Drivers of " ++ base_mineral "Cobalt" ++ " Demand") out).
Proof.
  apply (technology_drivers_note no_re ex_tech "Cobalt" ["STEPS"; "APS"]). reflexivity.
Defined.

(** ** The outputs of a run *)

(** X20. What a run that ends normally hands over.  The filtered summary
    holds exactly the rows of the loaded summary table that the sidebar
    selects, under their index labels and with the values of the loaded
    table (a missing value stays missing: the substitutes of the ranking
    block do not reach it) and with the same columns; the KPIs are those of
    that frame; the series table and the technology table are the results
    of their filters; the ranking is that of the whole summary table. *)
Theorem run_app_outputs (re_rest : string -> option (string -> bool))
    (df : list SupplyDemandRecord) (summary : DataFrame) (tech_df : list TechDemandRecord)
    (sel_mineral : string) (sel_scenario : list string) (rank_scenario : string)
    (o : Outputs) :
  run_app re_rest df summary tech_df sel_mineral sel_scenario rank_scenario = Ok o ->
  out_filtered o = filtered df sel_mineral sel_scenario /\
  columns (out_summary_filtered o) = columns summary /\
  (forall ir, In ir (rows (out_summary_filtered o)) <->
              In ir (rows summary) /\ selected_row sel_mineral sel_scenario ir) /\
  out_kpis o = computeKPIs (out_summary_filtered o) /\
  tech_filtered re_rest tech_df sel_mineral sel_scenario = Ok (out_tech_filtered o) /\
  rankRisk summary rank_scenario = Ok (out_ranking o) /\
  rankRisk_display summary rank_scenario = Ok (out_ranking_display o).
Proof.
  rewrite run_app_outcome, rankRisk_display_outcome, rankRisk_outcome.
  destruct (tech_filtered re_rest tech_df sel_mineral sel_scenario) as [tech|e];
    [|discriminate].
  destruct (display_outcome summary rank_scenario) as [[rk d]|e]; [|discriminate].
  cbn [fst snd]. intros [= <-].
  cbn [out_filtered out_summary_filtered out_kpis out_tech_filtered out_ranking
       out_ranking_display].
  split; [reflexivity|]. split; [reflexivity|].
  split; [|repeat split; reflexivity].
  intros ir. apply (In_summary_filtered summary sel_mineral sel_scenario ir).
Qed.

Lemma run_app_outputs_witness :
  exists o,
    run_app no_re
      [mkSeries "Lithium" "STEPS" 2030 (Num 1) (Num 2) (Num 1)]
      (read_frame all_columns [ex_lithium NaN (Num 3); ex_cobalt NaN (Num 5)])
      ex_tech "Lithium" ["STEPS"] "STEPS" = Ok o /\
    out_filtered o =
      filtered [mkSeries "Lithium" "STEPS" 2030 (Num 1) (Num 2) (Num 1)] "Lithium" ["STEPS"] /\
    columns (out_summary_filtered o) =
      columns (read_frame all_columns [ex_lithium NaN (Num 3); ex_cobalt NaN (Num 5)]) /\
    (forall ir, In ir (rows (out_summary_filtered o)) <->
       In ir (rows (read_frame all_columns [ex_lithium NaN (Num 3); ex_cobalt NaN (Num 5)])) /\
       selected_row "Lithium" ["STEPS"] ir) /\
    out_kpis o = computeKPIs (out_summary_filtered o) /\
    tech_filtered no_re ex_tech "Lithium" ["STEPS"] = Ok (out_tech_filtered o) /\
    rankRisk (read_frame all_columns [ex_lithium NaN (Num 3); ex_cobalt NaN (Num 5)]) "STEPS"
      = Ok (out_ranking o) /\
    rankRisk_display (read_frame all_columns [ex_lithium NaN (Num 3); ex_cobalt NaN (Num 5)])
                     "STEPS"
      = Ok (out_ranking_display o).
Proof.
  eexists. split; [reflexivity|].
  apply (run_app_outputs no_re
           [mkSeries "Lithium" "STEPS" 2030 (Num 1) (Num 2) (Num 1)]
           (read_frame all_columns [ex_lithium NaN (Num 3); ex_cobalt NaN (Num 5)])
           ex_tech "Lithium" ["STEPS"] "STEPS").
  reflexivity.
Defined.

(** ** The pipeline from the widgets *)

Lemma selectbox_none (options : list string) (pick : nat) :
  selectbox options pick = None <-> options = [].
Proof.
  unfold selectbox. rewrite nth_error_None. destruct options as [|x l].
  - split; [reflexivity|]. intros _. cbn. lia.
  - split; [|discriminate]. cbn [List.length Nat.pred]. lia.
Qed.

Lemma selectbox_offered (options : list string) (pick : nat) (x : string) :
  selectbox options pick = Some x -> In x options.
Proof.
  unfold selectbox. apply nth_error_In.
Qed.

Lemma mineral_options_nil (df : list SupplyDemandRecord) :
  mineral_options df = [] <-> df = [].
Proof.
  split.
  - intros E. destruct df as [|r df]; [reflexivity|]. exfalso.
    assert (H : In (sd_mineral r) (mineral_options (r :: df))).
    { apply sorted_unique_spec. now left. }
    rewrite E in H. destruct H.
  - now intros ->.
Qed.

Lemma options_membership (df : list SupplyDemandRecord) (m : string) :
  In m (mineral_options df) -> exists r, In r df /\ sd_mineral r = m.
Proof.
  intros H. apply sorted_unique_spec, in_map_iff in H. destruct H as (r & E & H). eauto.
Qed.

Lemma rank_scenario_options_nil (summary : DataFrame) :
  rank_scenario_options summary = [] <-> rows summary = [].
Proof.
  unfold rank_scenario_options. split.
  - intros E. destruct (rows summary) as [|ir l]; [reflexivity|]. exfalso.
    assert (H : In (scenario (snd ir))
                   (sorted (unique (map (fun ir => scenario (snd ir)) (ir :: l))))).
    { apply sorted_unique_spec. now left. }
    rewrite E in H. destruct H.
  - now intros ->.
Qed.

(** On a summary table without rows the ranking scenario plays no part. *)
Lemma run_app_no_summary_rows (re_rest : string -> option (string -> bool))
    (df : list SupplyDemandRecord) (summary : DataFrame) (tech_df : list TechDemandRecord)
    (sel_mineral : string) (sel_scenario : list string) (s s' : string) :
  rows summary = [] ->
  run_app re_rest df summary tech_df sel_mineral sel_scenario s =
  run_app re_rest df summary tech_df sel_mineral sel_scenario s'.
Proof.
  intros R. rewrite !run_app_outcome.
  assert (E : ranked summary s = ranked summary s').
  { unfold ranked, substituted, substituted_deficit, selected, mask_rows. now rewrite R. }
  unfold display_outcome. now rewrite E.
Qed.

(** X11. How the pipeline can end, from the widgets on.  It raises
    [AttributeError] exactly when the series table has no row (the mineral
    select box then yields [None]).  Otherwise a mineral of the table is
    selected, and the pipeline hands over its outputs exactly when the base
    mineral compiles as a pattern and the summary frame has the two key
    columns and the two gap columns; failing that it raises [re.error], or
    [KeyError] with columns the summary frame lacks. *)
Theorem pipeline_outcomes (re_rest : string -> option (string -> bool))
    (df : list SupplyDemandRecord) (summary : DataFrame) (tech_df : list TechDemandRecord)
    (pick_mineral : nat) (sel_scenario : list string) (pick_rank : nat) :
  (pipeline re_rest df summary tech_df pick_mineral sel_scenario pick_rank
   = Raise AttributeError <-> df = []) /\
  (df <> [] ->
   exists mineral,
     selectbox (mineral_options df) pick_mineral = Some mineral /\
     (exists r, In r df /\ sd_mineral r = mineral) /\
     ((exists o, pipeline re_rest df summary tech_df pick_mineral sel_scenario pick_rank = Ok o)
      <->
      re_compile re_rest (base_mineral mineral) <> None /\
      has_column MaxDeficitKt summary = true /\ has_column FirstDeficitYear summary = true /\
      has_column Gap2030Kt summary = true /\ has_column Gap2040Kt summary = true) /\
     (forall e,
        pipeline re_rest df summary tech_df pick_mineral sel_scenario pick_rank = Raise e ->
        (e = ReError /\ re_compile re_rest (base_mineral mineral) = None) \/
        exists missing,
          e = KeyError missing /\ missing <> [] /\
          forall c, In c missing -> has_column c summary = false)).
Proof.
  unfold pipeline.
  destruct (selectbox (mineral_options df) pick_mineral) as [mineral|] eqn:Sm.
  - assert (Hdf : df <> []).
    { intros ->.
      assert (N : selectbox (mineral_options []) pick_mineral = None)
        by (now apply selectbox_none).
      congruence. }
    set (rs := match selectbox (rank_scenario_options summary) pick_rank with
               | Some rank_scenario => rank_scenario
               | None => EmptyString
               end).
    assert (E : match selectbox (rank_scenario_options summary) pick_rank with
                | Some rank_scenario =>
                    run_app re_rest df summary tech_df mineral sel_scenario rank_scenario
                | None => run_app re_rest df summary tech_df mineral sel_scenario EmptyString
                end = run_app re_rest df summary tech_df mineral sel_scenario rs).
    { unfold rs. now destruct (selectbox (rank_scenario_options summary) pick_rank). }
    rewrite E.
    destruct (run_app_outcomes re_rest df summary tech_df mineral sel_scenario rs)
      as [Hok Hraise].
    split.
    + split; [|contradiction]. intros R. exfalso.
      destruct (Hraise _ R) as [[C _]|(missing & C & _)]; discriminate C.
    + intros _. exists mineral. split; [reflexivity|]. split; [|split].
      * apply selectbox_offered in Sm. now apply options_membership in Sm.
      * exact Hok.
      * exact Hraise.
  - apply selectbox_none, mineral_options_nil in Sm. subst df.
    split; [split; reflexivity|]. intros N. now elim N.
Qed.

Example pipeline_without_series_rows :
  pipeline no_re [] ex_summary ex_tech 0 ["STEPS"] 0 = Raise AttributeError.
Proof. reflexivity. Qed.

Example pipeline_example :
  exists o, pipeline no_re ex_series ex_summary ex_tech 1 ["STEPS"] 0 = Ok o /\
            out_filtered o = [mkSeries "Lithium" "STEPS" 2030 (Num 9) (Num 7) (Num (-2))].
Proof. eexists. split; reflexivity. Qed.
